(** * lateral-python: the currying decorators and the Y decorator

    A shallow embedding of the decorators built in [currier.py],
    [currier_pt.py] and [decoradorY_pt.py].

    Python functions are first-class values that close over their enclosing
    variables, are called with a tuple of positional arguments, and fail with
    [TypeError] when the number of arguments does not fit their parameters.
    The decorators of the three files are therefore embedded as

    - a type of Python values in which every inner [def] of the source is a
      constructor carrying the variables it closes over, and
    - a function [call] that runs the body of such a closure on a list of
      arguments, with the arity check Python performs before a body runs.

    The functions under decoration are parameters of the development: a
    section fixes their names, parameter counts and bodies, so that every
    theorem holds for every target. *)

From Stdlib Require Import String ZArith List Lia Bool Arith Factorial Wf_nat.
From Stdlib Require Import DecimalString.
Import ListNotations.
Local Open Scope string_scope.
Local Open Scope nat_scope.
Local Open Scope list_scope.

Set Warnings "-register-all".

(** ** Exceptions and results, shared by both developments *)

(** The [TypeError]s the source looks at are the two that CPython raises when
    a call does not fit a signature without defaults; every other [TypeError]
    (an unsupported operand, a call of a non-callable, ...) keeps its
    message. *)
Inductive type_error : Type :=
| missing_positional (fname : string) (missing : nat)
    (* "fname() missing <missing> required positional argument(s): ..." *)
| too_many_positional (fname : string) (takes given : nat)
    (* "fname() takes <takes> positional argument(s) but <given> were given" *)
| other_type_error (msg : string).

Section Results.

(** Exception classes other than [TypeError]. *)
Variable other_exn : Type.

Inductive exn : Type :=
| TypeError (te : type_error)
| Exception (e : other_exn).

Inductive result (A : Type) : Type :=
| Return (a : A)
| Raise (e : exn).

Definition is_TypeError (e : exn) : bool :=
  match e with TypeError _ => true | Exception _ => false end.

(** What binding [given] positional arguments to a signature of exactly
    [takes] positional parameters raises when the two differ. *)
Definition arity_error (fname : string) (takes given : nat) : exn :=
  if given <? takes
  then TypeError (missing_positional fname (takes - given))
  else TypeError (too_many_positional fname takes given).

End Results.

Arguments Return {other_exn A} a.
Arguments Raise {other_exn A} e.
Arguments TypeError {other_exn} te.
Arguments Exception {other_exn} e.
Arguments is_TypeError {other_exn} e.

(** ** The currying decorators ([currier.py], [currier_pt.py]) *)

Module Currier.

Section Semantics.

(** The functions handed to the decorators: top-level [def]s with a fixed
    number of positional parameters and no defaults. *)
Context {def : Type} (def_name : def -> string) (arity : def -> nat).

(** Whatever a target's body can read and change besides its arguments, and
    the exception classes, besides [TypeError], it can raise. *)
Context {world other_exn : Type}.

(** Python values.  A closure constructor is named after the inner [def]
    that creates it and carries that function's free variables. *)
Inductive value : Type :=
| VNone
| VInt (z : Z)
| Def (d : def)
(* fst_arg_curry (currier.py) / currying_do_1o_arg (currier_pt.py) *)
| get_fst_arg (uncurried_func : value)
| get_other_args (uncurried_func : value) (x : value)
(* curry_last (currier.py) *)
| func_with_last_applied (func : value)
| get_last_arg (func : value) (args : list value)
(* curry_ultimo (currier_pt.py) *)
| func_sem_ultimo (func : value)
| recebe_ultimo (func : value) (args : list value)
(* curry (currier.py, line 511) *)
| get_one_arg (func : value).

(** The interpreter state: the world the targets act on, and a ghost log
    with one entry for every execution of a target's body. *)
Record state : Type := mkState {
  the_world : world;
  executed : list (def * list value)
}.

Local Abbreviation res := (result other_exn value).

(** The body of a target: run only on as many arguments as it has
    parameters. *)
Context (body : def -> list value -> world -> res * world).

(** [__name__] of a callable, as it appears in arity errors. *)
Definition func_name (f : value) : string :=
  match f with
  | VNone => "NoneType"
  | VInt _ => "int"
  | Def d => def_name d
  | get_fst_arg _ => "get_fst_arg"
  | get_other_args _ _ => "get_other_args"
  | func_with_last_applied _ => "func_with_last_applied"
  | get_last_arg _ _ => "get_last_arg"
  | func_sem_ultimo _ => "func_sem_ultimo"
  | recebe_ultimo _ _ => "recebe_ultimo"
  | get_one_arg _ => "get_one_arg"
  end.

Definition not_callable : exn other_exn :=
  TypeError (other_type_error "object is not callable").

(** Running the body of target [d]: the run is logged, then the body acts
    on the world. *)
Definition run_body (d : def) (args : list value) (s : state)
  : res * state :=
  let (r, w) := body d args (the_world s) in
  (r, mkState w (executed s ++ [(d, args)])).

(** What [get_fst_arg(x)] returns: the closure [get_other_args], which
    remembers [x]. *)
Definition get_fst_arg_returns (uncurried_func x : value) : value :=
  get_other_args uncurried_func x.

(** The decorators themselves only allocate a closure. *)
Definition fst_arg_curry (uncurried_func : value) : value :=
  get_fst_arg uncurried_func.

Definition curry_last (func : value) : value :=
  func_with_last_applied func.

Definition curry_ultimo (func : value) : value :=
  func_sem_ultimo func.

Definition curry (func : value) : value :=
  get_one_arg func.

(** The call of [f] on the positional arguments [args] in state [s].
    Functions declared with a fixed parameter list reject any other number
    of arguments before their body runs; those declared with a star
    parameter take any number.  In the handler of [get_one_arg] the state is
    the one the failed attempt has left, and [fst_arg_curry(func)(arg)] is
    what [get_fst_arg] returns there. *)
Fixpoint call (f : value) (args : list value) (s : state) : res * state :=
  match f with
  | VNone | VInt _ => (Raise not_callable, s)
  | Def d =>
      if length args =? arity d then run_body d args s
      else (Raise (arity_error _ (def_name d) (arity d) (length args)), s)
  | get_fst_arg uncurried_func =>
      match args with
      | [x] => (Return (get_fst_arg_returns uncurried_func x), s)
      | _ => (Raise (arity_error _ "get_fst_arg" 1 (length args)), s)
      end
  | get_other_args uncurried_func x =>
      call uncurried_func (x :: args) s
  | func_with_last_applied func =>
      (Return (get_last_arg func args), s)
  | get_last_arg func args0 =>
      match args with
      | [arg] => call func (args0 ++ [arg]) s
      | _ => (Raise (arity_error _ "get_last_arg" 1 (length args)), s)
      end
  | func_sem_ultimo func =>
      (Return (recebe_ultimo func args), s)
  | recebe_ultimo func args0 =>
      match args with
      | [arg] => call func (args0 ++ [arg]) s
      | _ => (Raise (arity_error _ "recebe_ultimo" 1 (length args)), s)
      end
  | get_one_arg func =>
      match args with
      | [arg] =>
          (* try: return func(arg) *)
          match call func [arg] s with
          | (Raise (TypeError _), s') =>
              (* except TypeError: *)
              let applied_one_arg := get_fst_arg_returns func arg in
              (Return (curry applied_one_arg), s')
          | r => r
          end
      | _ => (Raise (arity_error _ "get_one_arg" 1 (length args)), s)
      end
  end.

(** [f(args1)(args2)...(argsn)]: each call on the result of the one before;
    the first failure ends the chain. *)
Fixpoint call_chain (f : value) (argss : list (list value)) (s : state)
  : res * state :=
  match argss with
  | [] => (Return f, s)
  | args :: argss' =>
      match call f args s with
      | (Return g, s') => call_chain g argss' s'
      | (Raise e, s') => (Raise e, s')
      end
  end.

(** [f(v1)(v2)...(vn)]: the chain with one value in each call. *)
Fixpoint call_each (f : value) (vs : list value) (s : state)
  : res * state :=
  match vs with
  | [] => (Return f, s)
  | v :: vs' =>
      match call f [v] s with
      | (Return g, s') => call_each g vs' s'
      | (Raise e, s') => (Raise e, s')
      end
  end.

(** The number of rounds of [for _ in range(n)]: none when [n] is
    negative. *)
Definition range (n : Z) : nat := Z.to_nat n.

(** The loop [for _ in range(...): func = step(func)], by the number of
    rounds left. *)
Fixpoint for_range (rounds : nat) (step : value -> value) (func : value)
  : value :=
  match rounds with
  | O => func
  | S rounds' => for_range rounds' step (step func)
  end.

Definition curry_n_args (n : Z) (func : value) : value :=
  for_range (range (n - 1)) curry_last func.

(** [len(signature(func).parameters)]: a star parameter counts as one
    parameter; [signature] rejects what is not callable. *)
Definition numero_de_parametros (func : value) : result other_exn nat :=
  match func with
  | VNone | VInt _ =>
      Raise (TypeError (other_type_error "is not a callable object"))
  | Def d => Return (arity d)
  | get_fst_arg _ | get_other_args _ _
  | func_with_last_applied _ | get_last_arg _ _
  | func_sem_ultimo _ | recebe_ultimo _ _
  | get_one_arg _ => Return 1
  end.

Definition curry_tudo (func : value) : res :=
  match numero_de_parametros func with
  | Raise e => Raise e
  | Return n => Return (for_range (range (Z.of_nat n - 1)) curry_ultimo func)
  end.

(** *** Vocabulary of the specification *)

(** What [func] has become after [fst_arg_curry(func)(v)] was applied for
    each [v] of [vs] in turn: Strategy A keeps its bound arguments as a
    nest of [get_other_args] closures around the target. *)
Definition bound (func : value) (vs : list value) : value :=
  fold_left get_other_args vs func.

(** Strategy A's wrapper holding the bound arguments [vs]. *)
Definition stageA (d : def) (vs : list value) : value :=
  curry (bound (Def d) vs).

(** Strategy B's wrapper holding the bound arguments [vs]: the decorated
    function itself before any argument, and afterwards the [recebe_ultimo]
    closure of the layers of [curry_ultimo] still to go through. *)
Definition stageB (d : def) (vs : list value) : value :=
  match vs with
  | [] => for_range (arity d - 1) curry_ultimo (Def d)
  | _ :: _ =>
      recebe_ultimo
        (for_range (arity d - 1 - length vs) curry_ultimo (Def d)) vs
  end.

(** A unary callable: a call with any number of arguments but one is
    rejected by the callable's own signature, before anything else runs. *)
Definition unary (f : value) : Prop :=
  forall args s,
    length args <> 1 ->
    call f args s = (Raise (arity_error _ (func_name f) 1 (length args)), s).

(** *** The loop of [curry_n_args] and [curry_tudo] *)

Lemma for_range_succ (step : value -> value) (k : nat) :
  forall func, for_range (S k) step func = step (for_range k step func).
Proof.
  induction k as [|k IH]; intro func; [reflexivity|].
  change (for_range (S (S k)) step func)
    with (for_range (S k) step (step func)).
  now rewrite IH.
Qed.

Lemma for_range_iter (step : value -> value) (k : nat) (func : value) :
  for_range k step func = Nat.iter k step func.
Proof.
  induction k as [|k IH]; [reflexivity|].
  now rewrite for_range_succ, IH.
Qed.

Lemma range_pred (n : nat) : range (Z.of_nat n - 1) = n - 1.
Proof. unfold range. lia. Qed.

Lemma curry_tudo_def (d : def) :
  curry_tudo (Def d) = Return (stageB d []).
Proof. unfold curry_tudo. simpl. now rewrite range_pred. Qed.

Lemma call_each_chain (vs : list value) :
  forall f s, call_each f vs s = call_chain f (map (fun v => [v]) vs) s.
Proof.
  induction vs as [|v vs IH]; intros f s; [reflexivity|].
  simpl. destruct (call f [v] s) as [[g|e] s']; [apply IH | reflexivity].
Qed.

Lemma call_fst_arg_curry (func arg : value) (s : state) :
  call (fst_arg_curry func) [arg] s
  = (Return (get_fst_arg_returns func arg), s).
Proof. reflexivity. Qed.

(** *** Calls of targets and of the closures around them *)

Lemma arity_error_TypeError (fname : string) (takes given : nat) :
  exists te, arity_error other_exn fname takes given = TypeError te.
Proof. unfold arity_error. destruct (given <? takes); eauto. Qed.

Lemma call_def_fits (d : def) (args : list value) (s : state) :
  length args = arity d -> call (Def d) args s = run_body d args s.
Proof. intro H. simpl. now rewrite (proj2 (Nat.eqb_eq _ _) H). Qed.

Lemma call_def_misfit (d : def) (args : list value) (s : state) :
  length args <> arity d ->
  call (Def d) args s
  = (Raise (arity_error _ (def_name d) (arity d) (length args)), s).
Proof. intro H. simpl. now rewrite (proj2 (Nat.eqb_neq _ _) H). Qed.

Lemma executed_run_body (d : def) (args : list value) (s : state) :
  executed (snd (run_body d args s)) = executed s ++ [(d, args)]
  /\ the_world (snd (run_body d args s)) = snd (body d args (the_world s)).
Proof. unfold run_body. now destruct (body d args (the_world s)). Qed.

Lemma bound_snoc (func : value) (vs : list value) (v : value) :
  bound func (vs ++ [v]) = get_other_args (bound func vs) v.
Proof. unfold bound. now rewrite fold_left_app. Qed.

Lemma call_bound (vs : list value) :
  forall func args s, call (bound func vs) args s = call func (vs ++ args) s.
Proof.
  induction vs as [|v vs IH]; intros func args s; [reflexivity|].
  change (bound func (v :: vs)) with (bound (get_other_args func v) vs).
  now rewrite IH.
Qed.

Lemma unary_get_one_arg (func : value) : unary (get_one_arg func).
Proof. intros [|a [|b args]] s H; simpl in *; congruence. Qed.

Lemma unary_recebe_ultimo (func : value) (args0 : list value) :
  unary (recebe_ultimo func args0).
Proof. intros [|a [|b args]] s H; simpl in *; congruence. Qed.

Lemma unary_def (d : def) : arity d = 1 -> unary (Def d).
Proof.
  intros A1 args s H. rewrite call_def_misfit by congruence.
  simpl. now rewrite A1.
Qed.

(** *** One step of each strategy *)

Lemma get_one_arg_step (func arg : value) (s : state) :
  call (get_one_arg func) [arg] s
  = match call func [arg] s with
    | (Raise (TypeError _), s') =>
        (Return (curry (get_other_args func arg)), s')
    | r => r
    end.
Proof. reflexivity. Qed.

Lemma stageA_partial (d : def) (vs : list value) (v : value) (s : state) :
  length vs + 1 < arity d ->
  call (stageA d vs) [v] s = (Return (stageA d (vs ++ [v])), s).
Proof.
  intro H. unfold stageA, curry. rewrite get_one_arg_step, call_bound.
  rewrite call_def_misfit by (rewrite length_app; simpl; lia).
  destruct (arity_error_TypeError (def_name d) (arity d) (length (vs ++ [v])))
    as [te ->].
  now rewrite bound_snoc.
Qed.

Lemma trial_rejected (d : def) (vs : list value) (v : value) (s : state) :
  length vs + 1 < arity d ->
  call (bound (Def d) vs) [v] s
  = (Raise (TypeError (missing_positional (def_name d)
                         (arity d - (length vs + 1)))), s).
Proof.
  intro H. rewrite call_bound.
  rewrite call_def_misfit by (rewrite length_app; simpl; lia).
  unfold arity_error. rewrite length_app. simpl.
  now rewrite (proj2 (Nat.ltb_lt _ _) H).
Qed.

Lemma stageA_final (d : def) (vs : list value) (v : value) (s : state) :
  length vs + 1 = arity d ->
  call (stageA d vs) [v] s
  = match call (Def d) (vs ++ [v]) s with
    | (Raise (TypeError _), s') => (Return (stageA d (vs ++ [v])), s')
    | r => r
    end.
Proof.
  intros _. unfold stageA, curry.
  now rewrite get_one_arg_step, call_bound, bound_snoc.
Qed.

Lemma stageB_partial (d : def) (vs : list value) (v : value) (s : state) :
  length vs + 1 < arity d ->
  call (stageB d vs) [v] s = (Return (stageB d (vs ++ [v])), s).
Proof.
  intro H. destruct vs as [|x vs]; simpl in H.
  - cbn [stageB app length].
    remember (arity d - 1 - 1) as k eqn:Ek.
    replace (arity d - 1) with (S k) by lia.
    now rewrite for_range_succ.
  - cbn [stageB app call length]. rewrite length_app. cbn [length].
    remember (arity d - 1 - S (length vs + 1)) as k eqn:Ek.
    replace (arity d - 1 - S (length vs)) with (S k) by lia.
    now rewrite for_range_succ.
Qed.

Lemma stageB_final (d : def) (vs : list value) (v : value) (s : state) :
  length vs + 1 = arity d ->
  call (stageB d vs) [v] s = call (Def d) (vs ++ [v]) s.
Proof.
  intro H. destruct vs as [|x vs]; simpl in H.
  - unfold stageB. now replace (arity d - 1) with 0 by lia.
  - cbn [stageB length call].
    now replace (arity d - 1 - S (length vs)) with 0 by lia.
Qed.

(** *** Chains of one-argument calls *)

Lemma call_each_app (vs ws : list value) :
  forall f s,
    call_each f (vs ++ ws) s
    = match call_each f vs s with
      | (Return g, s') => call_each g ws s'
      | (Raise e, s') => (Raise e, s')
      end.
Proof.
  induction vs as [|v vs IH]; intros f s; [reflexivity|].
  simpl. destruct (call f [v] s) as [[g|e] s']; [apply IH | reflexivity].
Qed.

Section Chain.

(** Both strategies walk through a family of wrappers indexed by the
    arguments bound so far. *)
Variable d : def.
Variable stage : list value -> value.
Hypothesis stage_partial :
  forall vs v s,
    length vs + 1 < arity d ->
    call (stage vs) [v] s = (Return (stage (vs ++ [v])), s).

Lemma chain_partial (more : list value) :
  forall vs s,
    length vs + length more < arity d ->
    call_each (stage vs) more s = (Return (stage (vs ++ more)), s).
Proof.
  induction more as [|v more IH]; intros vs s H; simpl in *.
  - now rewrite app_nil_r.
  - rewrite stage_partial by lia.
    rewrite IH by (rewrite length_app; simpl; lia).
    now rewrite <- app_assoc.
Qed.

Lemma chain_prefix (vs : list value) (s : state) :
  length vs < arity d ->
  call_each (stage []) vs s = (Return (stage vs), s).
Proof. intro H. now rewrite chain_partial. Qed.

Lemma chain_snoc (vs : list value) (v : value) (s : state) :
  length vs + 1 = arity d ->
  call_each (stage []) (vs ++ [v]) s = call (stage vs) [v] s.
Proof.
  intro L. rewrite call_each_app, chain_prefix by lia.
  simpl. now destruct (call (stage vs) [v] s) as [[g|e] s'].
Qed.

End Chain.

(** *** What the two decorated functions do along a chain *)

Lemma full_list {A : Type} (vs : list A) (n : nat) :
  1 <= n -> length vs = n ->
  exists front v, vs = front ++ [v] /\ length front + 1 = n.
Proof.
  intros N L. destruct (exists_last (l := vs)) as (front & v & ->).
  - intros ->. simpl in L. lia.
  - exists front, v. rewrite length_app in L. simpl in L. now split.
Qed.

Lemma curry_prefix (d : def) (vs : list value) (s : state) :
  length vs < arity d ->
  call_each (curry (Def d)) vs s = (Return (stageA d vs), s).
Proof. apply (chain_prefix d (stageA d) (stageA_partial d)). Qed.

Lemma curry_tudo_prefix (d : def) (vs : list value) (s : state) :
  length vs < arity d ->
  call_each (stageB d []) vs s = (Return (stageB d vs), s).
Proof. apply (chain_prefix d (stageB d) (stageB_partial d)). Qed.

Lemma curry_full (d : def) (vs : list value) (s : state) :
  1 <= arity d -> length vs = arity d ->
  call_each (curry (Def d)) vs s
  = match call (Def d) vs s with
    | (Raise (TypeError _), s') => (Return (stageA d vs), s')
    | r => r
    end.
Proof.
  intros A1 L. destruct (full_list vs (arity d) A1 L) as (front & v & -> & F).
  rewrite <- stageA_final by assumption.
  apply (chain_snoc d (stageA d) (stageA_partial d) _ _ _ F).
Qed.

Lemma curry_tudo_full (d : def) (vs : list value) (s : state) :
  1 <= arity d -> length vs = arity d ->
  call_each (stageB d []) vs s = call (Def d) vs s.
Proof.
  intros A1 L. destruct (full_list vs (arity d) A1 L) as (front & v & -> & F).
  rewrite <- stageB_final by assumption.
  apply (chain_snoc d (stageB d) (stageB_partial d) _ _ _ F).
Qed.

Lemma curry_tudo_first_stage (d : def) :
  2 <= arity d ->
  stageB d []
  = func_sem_ultimo (for_range (arity d - 1 - 1) curry_ultimo (Def d)).
Proof.
  intro H. unfold stageB.
  remember (arity d - 1 - 1) as k eqn:Ek.
  replace (arity d - 1) with (S k) by lia.
  now rewrite for_range_succ.
Qed.

(** What the proofs below keep reaching for. *)
Create HintDb curry.
#[local] Hint Resolve curry_tudo_def curry_prefix curry_tudo_prefix : curry.

(** The function [curry_tudo] returns for target [d] is the first stage of
    Strategy B. *)
Ltac decorated_by_curry_tudo d :=
  exists (stageB d []); split; [apply curry_tudo_def|].

(** *** The properties of the specification *)

(** C1. For a target [d] of arity at least one and as many arguments [vs]
    as it has parameters, on which the direct call [d(v1, ..., vA)] returns
    [r]: supplying the arguments one at a time to the decorated function
    returns the same [r] (and leaves the same state), both for [curry] of
    currier.py and for [curry_tudo] of currier_pt.py. *)
Theorem curried_chain_returns_direct_result
    (d : def) (vs : list value) (s s' : state) (r : value) :
  1 <= arity d ->
  length vs = arity d ->
  call (Def d) vs s = (Return r, s') ->
  call_each (curry (Def d)) vs s = (Return r, s')
  /\ exists h, curry_tudo (Def d) = Return h
             /\ call_each h vs s = (Return r, s').
Proof.
  intros A1 L Direct. split.
  - now rewrite curry_full, Direct.
  - decorated_by_curry_tudo d. now rewrite curry_tudo_full.
Qed.

(** C2, as amended. When the fully applied target raises [e]: under
    [curry_tudo] the chain of one-argument calls raises that same [e],
    whatever its kind; under [curry] it raises that same [e] when [e] is not
    a [TypeError], while a [TypeError] of the target is taken by the
    [except TypeError] clause and answered with one more wrapper.  At any
    stage of [curry], whatever function it wraps, a failure of the attempt
    that is not a [TypeError] passes through unchanged, and a call with any
    number of values but one fails with the stage's own arity error, which
    no handler encloses. *)
Theorem failures_other_than_TypeError_propagate
    (d : def) (vs : list value) (s s' : state) (e : exn other_exn) :
  1 <= arity d ->
  length vs = arity d ->
  call (Def d) vs s = (Raise e, s') ->
  (is_TypeError e = false ->
     call_each (curry (Def d)) vs s = (Raise e, s'))
  /\ (is_TypeError e = true ->
     call_each (curry (Def d)) vs s = (Return (stageA d vs), s'))
  /\ (exists h, curry_tudo (Def d) = Return h
              /\ call_each h vs s = (Raise e, s'))
  /\ (forall func arg s0 e0 s1,
        call func [arg] s0 = (Raise e0, s1) ->
        is_TypeError e0 = false ->
        call (curry func) [arg] s0 = (Raise e0, s1))
  /\ (forall func args s0,
        length args <> 1 ->
        call (curry func) args s0
        = (Raise (arity_error _ "get_one_arg" 1 (length args)), s0)).
Proof.
  intros A1 L Direct. repeat split.
  - intro NotTE. rewrite curry_full, Direct by assumption.
    now destruct e.
  - intro TE. rewrite curry_full, Direct by assumption.
    now destruct e.
  - decorated_by_curry_tudo d. now rewrite curry_tudo_full.
  - intros func arg s0 e0 s1 Attempt NotTE.
    unfold curry. rewrite get_one_arg_step, Attempt. now destruct e0.
  - intros func args s0. apply unary_get_one_arg.
Qed.

(** C3, as amended. Strategy A: after any number of arguments short of the
    target's arity (none included) the chain has returned a unary callable.
    Strategy B: the same holds once an argument has been supplied, and at
    once for a target of arity one, which [curry_tudo] returns as it is; for
    a target of arity two or more the function that [curry_tudo] returns is
    declared with a star parameter, and a call of it with any number of
    values returns the [recebe_ultimo] closure holding them. *)
Theorem stages_are_unary
    (d : def) (vs : list value) (s : state) :
  length vs < arity d ->
  (exists g, call_each (curry (Def d)) vs s = (Return g, s) /\ unary g)
  /\ exists h,
       curry_tudo (Def d) = Return h
       /\ (1 <= length vs \/ arity d = 1 ->
           exists g, call_each h vs s = (Return g, s) /\ unary g)
       /\ (2 <= arity d ->
           exists func,
             h = func_sem_ultimo func
             /\ forall args s0,
                  call h args s0 = (Return (recebe_ultimo func args), s0)).
Proof.
  intro K. split.
  - exists (stageA d vs). split; [auto with curry | apply unary_get_one_arg].
  - decorated_by_curry_tudo d. split.
    + intro H. exists (stageB d vs). split; [auto with curry|].
      destruct vs as [|v vs].
      * destruct H as [H|H]; [simpl in H; lia|].
        unfold stageB. rewrite H. now apply unary_def.
      * apply unary_recebe_ultimo.
    + intro A2. rewrite (curry_tudo_first_stage d A2).
      eexists. split; [reflexivity|]. reflexivity.
Qed.

(** C4. A wrapper holding [k] bound arguments, [k] less than the arity [A],
    is what the chain returns after [k] one-argument calls, the state
    untouched.  Called with one more value it returns the wrapper holding
    [k+1] arguments when [k+1 < A], again leaving the state untouched, and
    when [k+1 = A] the result of the target on all [A] arguments: the value
    it returns (for [curry_tudo] any outcome, for [curry] also any failure
    that is not a [TypeError]).  The wrapper is a unary callable, under
    [curry_tudo] once an argument is bound. *)
Theorem wrapper_chain_invariant
    (d : def) (vs : list value) (v : value) (s : state) :
  length vs < arity d ->
  (call_each (curry (Def d)) vs s = (Return (stageA d vs), s)
   /\ (length vs + 1 < arity d ->
       call (stageA d vs) [v] s = (Return (stageA d (vs ++ [v])), s))
   /\ (length vs + 1 = arity d ->
       forall o s',
         call (Def d) (vs ++ [v]) s = (o, s') ->
         (forall te, o <> Raise (TypeError te)) ->
         call (stageA d vs) [v] s = (o, s'))
   /\ unary (stageA d vs))
  /\
  (curry_tudo (Def d) = Return (stageB d [])
   /\ call_each (stageB d []) vs s = (Return (stageB d vs), s)
   /\ (length vs + 1 < arity d ->
       call (stageB d vs) [v] s = (Return (stageB d (vs ++ [v])), s))
   /\ (length vs + 1 = arity d ->
       call (stageB d vs) [v] s = call (Def d) (vs ++ [v]) s)
   /\ (1 <= length vs -> unary (stageB d vs))).
Proof.
  intro K. split; repeat split.
  - now apply curry_prefix.
  - apply stageA_partial.
  - intros F o s' Direct NotTE. rewrite stageA_final, Direct by assumption.
    destruct o as [r|[te|e]]; try reflexivity.
    now destruct (NotTE te).
  - apply unary_get_one_arg.
  - apply curry_tudo_def.
  - now apply curry_tudo_prefix.
  - apply stageB_partial.
  - apply stageB_final.
  - destruct vs; simpl; [lia|]. intros _. apply unary_recebe_ultimo.
Qed.

(** C5. A call with two or more values of a unary stage of the chain (under
    [curry] any stage short of the arity, under [curry_tudo] any such stage
    that holds a bound argument) raises the [TypeError] of a call with too
    many positional arguments, naming the stage and the number of values
    given; the state is left as it was, so no value was consumed. *)
Theorem several_values_in_one_call_rejected
    (d : def) (vs args : list value) (s : state) :
  length vs < arity d ->
  2 <= length args ->
  (exists g,
     call_each (curry (Def d)) vs s = (Return g, s)
     /\ call g args s
        = (Raise (TypeError
                    (too_many_positional "get_one_arg" 1 (length args))), s))
  /\ (1 <= length vs ->
      exists h g,
        curry_tudo (Def d) = Return h
        /\ call_each h vs s = (Return g, s)
        /\ call g args s
           = (Raise (TypeError
                       (too_many_positional "recebe_ultimo" 1 (length args))),
              s)).
Proof.
  intros K Many.
  assert (Err : forall fname,
             arity_error other_exn fname 1 (length args)
             = TypeError (too_many_positional fname 1 (length args))).
  { intro fname. unfold arity_error.
    now rewrite (proj2 (Nat.ltb_ge _ _)) by lia. }
  split.
  - exists (stageA d vs). split; [now apply curry_prefix|].
    rewrite <- Err. apply unary_get_one_arg. lia.
  - intro K1. exists (stageB d []), (stageB d vs).
    split; [apply curry_tudo_def|]. split; [now apply curry_tudo_prefix|].
    rewrite <- Err. destruct vs as [|x vs]; [simpl in K1; lia|].
    apply unary_recebe_ultimo. lia.
Qed.

(** C6, as amended. A call with no value raises the [TypeError] of a missing
    positional argument at every stage of [curry], at every stage of
    [curry_tudo] that holds a bound argument, and at a target of arity one,
    which [curry_tudo] returns as it is.  The function that [curry_tudo]
    returns for a target of arity two or more takes a star parameter: called
    with no value it raises nothing and returns a [recebe_ultimo] closure
    that holds no argument. *)
Theorem zero_values_in_one_call
    (d : def) (vs : list value) (s : state) :
  length vs < arity d ->
  (exists g,
     call_each (curry (Def d)) vs s = (Return g, s)
     /\ call g [] s
        = (Raise (TypeError (missing_positional "get_one_arg" 1)), s))
  /\ (1 <= length vs ->
      exists h g,
        curry_tudo (Def d) = Return h
        /\ call_each h vs s = (Return g, s)
        /\ call g [] s
           = (Raise (TypeError (missing_positional "recebe_ultimo" 1)), s))
  /\ (arity d = 1 ->
      curry_tudo (Def d) = Return (Def d)
      /\ call (Def d) [] s
         = (Raise (TypeError (missing_positional (def_name d) 1)), s))
  /\ (2 <= arity d ->
      exists h func,
        curry_tudo (Def d) = Return h
        /\ call h [] s = (Return (recebe_ultimo func []), s)).
Proof.
  intro K. repeat split.
  - exists (stageA d vs). split; [now apply curry_prefix|].
    now apply unary_get_one_arg.
  - intro K1. exists (stageB d []), (stageB d vs).
    split; [apply curry_tudo_def|]. split; [now apply curry_tudo_prefix|].
    destruct vs as [|x vs]; [simpl in K1; lia|].
    now apply unary_recebe_ultimo.
  - rewrite curry_tudo_def. unfold stageB. now rewrite H.
  - rewrite call_def_misfit by (simpl; lia). now rewrite H.
  - intro A2. exists (stageB d []). eexists.
    split; [apply curry_tudo_def|].
    rewrite (curry_tudo_first_stage d A2). reflexivity.
Qed.

(** C7. [curry_tudo] applies [curry_ultimo] to a target as many times as the
    target has parameters, less one, and [curry_n_args n] applies
    [curry_last] [n - 1] times (never, when [n] is below one).  Hence a
    target of arity one comes back unchanged, and decorating what
    [curry_tudo] returned changes nothing. *)
Theorem curry_tudo_rounds (d : def) :
  curry_tudo (Def d) = Return (Nat.iter (arity d - 1) curry_ultimo (Def d))
  /\ (forall n func,
        curry_n_args n func = Nat.iter (Z.to_nat (n - 1)) curry_last func)
  /\ (arity d = 1 -> curry_tudo (Def d) = Return (Def d))
  /\ (forall h, curry_tudo (Def d) = Return h -> curry_tudo h = Return h).
Proof.
  repeat split.
  - unfold curry_tudo. simpl. now rewrite range_pred, for_range_iter.
  - intros n func. apply for_range_iter.
  - intro A1. unfold curry_tudo. simpl. now rewrite range_pred, A1.
  - intros h H.
    assert (E : h = stageB d []) by (rewrite curry_tudo_def in H; congruence).
    subst h.
    destruct (le_lt_dec 2 (arity d)) as [A2|A2].
    + now rewrite (curry_tudo_first_stage d A2).
    + unfold stageB. replace (arity d - 1) with 0 by lia.
      unfold curry_tudo. simpl. rewrite range_pred.
      now replace (arity d - 1) with 0 by lia.
Qed.

(** C9. Along the chain of one-argument calls on a target of arity [A], the
    state (the world and the log of executed bodies) is the initial one after
    each of the first [A - 1] calls, so neither strategy has run the body or
    touched the world by then; after the [A]-th call the log has grown by
    exactly one entry, the run of the target on the [A] arguments, and the
    world is the one that single run leaves.  The attempts of [curry] on
    fewer than [A] arguments end in the target's own missing-argument
    [TypeError], in the state they started from. *)
Theorem body_executed_exactly_once
    (d : def) (vs : list value) (s : state) :
  1 <= arity d ->
  length vs = arity d ->
  (forall front v s0,
     length front + 1 < arity d ->
     call (bound (Def d) front) [v] s0
     = (Raise (TypeError (missing_positional (def_name d)
                            (arity d - (length front + 1)))), s0))
  /\ (forall k, k < arity d ->
     snd (call_each (curry (Def d)) (firstn k vs) s) = s)
  /\ executed (snd (call_each (curry (Def d)) vs s))
     = executed s ++ [(d, vs)]
  /\ the_world (snd (call_each (curry (Def d)) vs s))
     = snd (body d vs (the_world s))
  /\ exists h,
       curry_tudo (Def d) = Return h
       /\ (forall k, k < arity d -> snd (call_each h (firstn k vs) s) = s)
       /\ executed (snd (call_each h vs s)) = executed s ++ [(d, vs)]
       /\ the_world (snd (call_each h vs s))
          = snd (body d vs (the_world s)).
Proof.
  intros A1 L.
  assert (Pre : forall k, k < arity d -> length (firstn k vs) < arity d).
  { intros k K. rewrite length_firstn. lia. }
  assert (A : snd (call_each (curry (Def d)) vs s) = snd (run_body d vs s)).
  { rewrite curry_full, call_def_fits by assumption.
    now destruct (run_body d vs s) as [[r|[te|e]] s']. }
  assert (B : snd (call_each (stageB d []) vs s) = snd (run_body d vs s)).
  { now rewrite curry_tudo_full, call_def_fits. }
  destruct (executed_run_body d vs s) as [Log World].
  split; [|split; [|split; [|split]]].
  - intros front v s0. apply trial_rejected.
  - intros k K. now rewrite curry_prefix by auto.
  - now rewrite A.
  - now rewrite A.
  - decorated_by_curry_tudo d. split; [|split].
    + intros k K. now rewrite curry_tudo_prefix by auto.
    + now rewrite B.
    + now rewrite B.
Qed.

End Semantics.

Arguments value : clear implicits.
Arguments state : clear implicits.

(** *** The decorated functions of the two files *)

Module Examples.

(** The targets the two files decorate and test, and two stand-ins for what
    the files have no example of: a target that raises something other than
    [TypeError], and a target that acts on the world. *)
Inductive py_def : Type :=
| add_3                 (* currier.py:42     def add_3(y): return 3 + y *)
| add_3_values          (* currier.py:204    x + y + z *)
| add_4                 (* currier.py:523    x + y + z + w *)
| add_5                 (* currier.py:527    x + y + z + w + r *)
| soma_4_curried_tudo   (* currier_pt.py:470 x + y + z + w *)
| soma_5_curried_tudo   (* currier_pt.py:474 x + y + z + w + v *)
| floor_div             (* stand-in: def floor_div(x, y): return x // y *)
| print_sum.            (* stand-in: def print_sum(x, y): print(x + y) *)

Inductive py_exn : Type :=
| ZeroDivisionError.

(** The world of the examples is what has been printed. *)
Definition stdout : Type := list (value py_def).

Definition def_name (d : py_def) : string :=
  match d with
  | add_3 => "add_3"
  | add_3_values => "add_3_values"
  | add_4 => "add_4"
  | add_5 => "add_5"
  | soma_4_curried_tudo => "soma_4_curried_tudo"
  | soma_5_curried_tudo => "soma_5_curried_tudo"
  | floor_div => "floor_div"
  | print_sum => "print_sum"
  end.

Definition arity (d : py_def) : nat :=
  match d with
  | add_3 => 1
  | add_3_values => 3
  | add_4 | soma_4_curried_tudo => 4
  | add_5 | soma_5_curried_tudo => 5
  | floor_div | print_sum => 2
  end.

Definition unsupported_operand (op : string) : exn py_exn :=
  TypeError
    (other_type_error ("unsupported operand type(s) for " ++ op)%string).

(** [a + b] and [a // b]: defined on integers, a [TypeError] on [None] and
    on functions. *)
Definition py_add (a b : value py_def) : result py_exn (value py_def) :=
  match a, b with
  | VInt x, VInt y => Return (VInt (x + y))
  | _, _ => Raise (unsupported_operand "+")
  end.

Definition py_floordiv (a b : value py_def) : result py_exn (value py_def) :=
  match a, b with
  | VInt x, VInt y =>
      if (y =? 0)%Z then Raise (Exception ZeroDivisionError)
      else Return (VInt (x / y))
  | _, _ => Raise (unsupported_operand "//")
  end.

(** [x1 + x2 + ... + xn], evaluated from the left. *)
Fixpoint py_sum (acc : value py_def) (rest : list (value py_def))
  : result py_exn (value py_def) :=
  match rest with
  | [] => Return acc
  | x :: rest' =>
      match py_add acc x with
      | Return acc' => py_sum acc' rest'
      | Raise e => Raise e
      end
  end.

Definition body (d : py_def) (args : list (value py_def)) (out : stdout)
  : result py_exn (value py_def) * stdout :=
  match d, args with
  | add_3, [y] => (py_add (VInt 3) y, out)
  | (add_3_values | add_4 | add_5
     | soma_4_curried_tudo | soma_5_curried_tudo), x :: rest =>
      (py_sum x rest, out)
  | floor_div, [x; y] => (py_floordiv x y, out)
  | print_sum, [x; y] =>
      match py_add x y with
      | Return v => (Return VNone, out ++ [v])
      | Raise e => (Raise e, out)
      end
  | _, _ => (Return VNone, out)   (* never run: the arity was checked *)
  end.

Local Abbreviation call := (call def_name arity body).
Local Abbreviation call_each := (call_each def_name arity body).
Local Abbreviation call_chain := (call_chain def_name arity body).
Local Abbreviation unary := (unary def_name arity body).
Local Abbreviation curry_tudo := (curry_tudo arity (other_exn := py_exn)).

Definition s0 : state py_def stdout := mkState [] [].

Definition ran (d : py_def) (args : list (value py_def))
  : state py_def stdout :=
  mkState [] [(d, args)].

Definition ints (zs : list Z) : list (value py_def) := map VInt zs.

(** The assertions of currier.py and currier_pt.py, replayed. *)

Example add_3_values_first_curried :       (* currier.py:207 *)
  call_chain (fst_arg_curry (Def add_3_values)) [ints [3]%Z; ints [5; 7]%Z] s0
  = (Return (VInt 15), ran add_3_values (ints [3; 5; 7]%Z)).
Proof. reflexivity. Qed.

Example add_3_values_not_fully_curried :   (* currier.py:215 *)
  call_chain (fst_arg_curry (Def add_3_values)) [ints [3]%Z; ints [5]%Z] s0
  = (Raise (TypeError (missing_positional "add_3_values" 1)), s0).
Proof. reflexivity. Qed.

Example add_3_values_no_argument :         (* currier.py:230 *)
  call (fst_arg_curry (Def add_3_values)) [] s0
  = (Raise (TypeError (missing_positional "get_fst_arg" 1)), s0).
Proof. reflexivity. Qed.

Example add_3_values_reapply_curry :       (* currier.py:244 *)
  call_each (fst_arg_curry (fst_arg_curry (Def add_3_values)))
    (ints [3; 5; 7]%Z) s0
  = (Raise (TypeError (too_many_positional "get_fst_arg" 1 2)), s0).
Proof. reflexivity. Qed.

Example add_3_curried :                    (* currier.py:363 *)
  call_each (curry_last (curry_last (Def add_3_values))) (ints [3; 5; 7]%Z) s0
  = (Return (VInt 15), ran add_3_values (ints [3; 5; 7]%Z)).
Proof. reflexivity. Qed.

Example add_3_using_n_args :               (* currier.py:391 *)
  call_each (curry_n_args 3%Z (Def add_3_values)) (ints [3; 5; 7]%Z) s0
  = (Return (VInt 15), ran add_3_values (ints [3; 5; 7]%Z)).
Proof. reflexivity. Qed.

Example add_4_one_at_a_time :              (* currier.py:530 *)
  call_each (curry (Def add_4)) (ints [1; 2; 3; 4]%Z) s0
  = (Return (VInt 10), ran add_4 (ints [1; 2; 3; 4]%Z)).
Proof. reflexivity. Qed.

Example add_5_one_at_a_time :              (* currier.py:531 *)
  call_each (curry (Def add_5)) (ints [1; 2; 3; 4; 5]%Z) s0
  = (Return (VInt 15), ran add_5 (ints [1; 2; 3; 4; 5]%Z)).
Proof. reflexivity. Qed.

Example add_4_two_values_at_once :         (* currier.py:545 *)
  call_chain (curry (Def add_4)) [ints [1]%Z; ints [2]%Z; ints [3; 4]%Z] s0
  = (Raise (TypeError (too_many_positional "get_one_arg" 1 2)), s0).
Proof. reflexivity. Qed.

Example add_4_no_value :                   (* currier.py:550 *)
  call_chain (curry (Def add_4)) [ints [1]%Z; ints [2]%Z; []] s0
  = (Raise (TypeError (missing_positional "get_one_arg" 1)), s0).
Proof. reflexivity. Qed.

Example soma_4_curried_tudo_one_at_a_time : (* currier_pt.py:477 *)
  exists h,
    curry_tudo (Def soma_4_curried_tudo) = Return h
    /\ call_each h (ints [1; 2; 3; 4]%Z) s0
       = (Return (VInt 10), ran soma_4_curried_tudo (ints [1; 2; 3; 4]%Z)).
Proof. eexists. split; reflexivity. Qed.

(** The general theorems at work on these targets. *)

Lemma curried_chain_returns_direct_result_witness :
  call_each (curry (Def add_4)) (ints [1; 2; 3; 4]%Z) s0
  = (Return (VInt 10), ran add_4 (ints [1; 2; 3; 4]%Z))
  /\ exists h,
       curry_tudo (Def add_4) = Return h
       /\ call_each h (ints [1; 2; 3; 4]%Z) s0
          = (Return (VInt 10), ran add_4 (ints [1; 2; 3; 4]%Z)).
Proof.
  apply (curried_chain_returns_direct_result def_name arity body add_4);
    [simpl; lia | reflexivity | reflexivity].
Defined.

(** [floor_div(1)(0)] under either decorator raises the [ZeroDivisionError]
    of [floor_div(1, 0)]. *)
Lemma failures_other_than_TypeError_propagate_witness :
  call_each (curry (Def floor_div)) (ints [1; 0]%Z) s0
  = (Raise (Exception ZeroDivisionError), ran floor_div (ints [1; 0]%Z))
  /\ exists h,
       curry_tudo (Def floor_div) = Return h
       /\ call_each h (ints [1; 0]%Z) s0
          = (Raise (Exception ZeroDivisionError),
             ran floor_div (ints [1; 0]%Z)).
Proof.
  assert (1 <= arity floor_div) as A1 by (simpl; lia).
  assert (length (ints [1; 0]%Z) = arity floor_div) as L by reflexivity.
  assert (call (Def floor_div) (ints [1; 0]%Z) s0
          = (Raise (Exception ZeroDivisionError),
             ran floor_div (ints [1; 0]%Z))) as Direct by reflexivity.
  destruct (failures_other_than_TypeError_propagate
              def_name arity body floor_div _ _ _ _ A1 L Direct)
    as (NotTE & _ & B & _ & _).
  split; [apply NotTE; reflexivity | exact B].
Defined.

(** C2, as stated, fails under [curry]: [add_4(1, 2, 3, None)] raises the
    [TypeError] of [6 + None], a wrong value type, while
    [curry(add_4)(1)(2)(3)(None)] raises nothing and returns one more
    wrapper. *)
Lemma curry_intercepts_TypeError_of_target :
  let args := ints [1; 2; 3]%Z ++ [VNone] in
  call (Def add_4) args s0
  = (Raise (unsupported_operand "+"), ran add_4 args)
  /\ call_each (curry (Def add_4)) args s0
     = (Return (stageA add_4 args), ran add_4 args)
  /\ call_each (curry (Def add_4)) args s0
     <> (Raise (unsupported_operand "+"), ran add_4 args).
Proof. repeat split. discriminate. Qed.

Lemma stages_are_unary_witness :
  (exists g,
     call_each (curry (Def add_4)) (ints [1; 2]%Z) s0 = (Return g, s0)
     /\ unary g)
  /\ exists h,
       curry_tudo (Def add_4) = Return h
       /\ (1 <= length (ints [1; 2]%Z) \/ arity add_4 = 1 ->
           exists g, call_each h (ints [1; 2]%Z) s0 = (Return g, s0)
                     /\ unary g)
       /\ (2 <= arity add_4 ->
           exists func,
             h = func_sem_ultimo func
             /\ forall args s,
                  call h args s = (Return (recebe_ultimo func args), s)).
Proof.
  apply (stages_are_unary def_name arity body add_4 (ints [1; 2]%Z) s0).
  simpl; lia.
Defined.

(** C3, as stated, fails for [curry_tudo]: the function it returns for
    [soma_4_curried_tudo] accepts two values in one call, and none. *)
Lemma curry_tudo_first_stage_not_unary :
  exists h,
    curry_tudo (Def soma_4_curried_tudo) = Return h
    /\ (exists g, call h (ints [1; 2]%Z) s0 = (Return g, s0))
    /\ (exists g, call h [] s0 = (Return g, s0))
    /\ ~ unary h.
Proof.
  eexists. split; [reflexivity|].
  split; [eexists; reflexivity|]. split; [eexists; reflexivity|].
  intro U. specialize (U [] s0). simpl in U.
  assert (0 <> 1) as H by lia. specialize (U H). discriminate U.
Qed.

Lemma wrapper_chain_invariant_witness :
  call (stageA add_4 (ints [1; 2; 3]%Z)) (ints [4]%Z) s0
  = (Return (VInt 10), ran add_4 (ints [1; 2; 3; 4]%Z))
  /\ call (stageB arity add_4 (ints [1; 2]%Z)) (ints [3]%Z) s0
     = (Return (stageB arity add_4 (ints [1; 2; 3]%Z)), s0).
Proof.
  split.
  - assert (length (ints [1; 2; 3]%Z) < arity add_4) as K by (simpl; lia).
    destruct (wrapper_chain_invariant
                def_name arity body add_4 _ (VInt 4) s0 K)
      as ((_ & _ & Last & _) & _).
    apply Last; [reflexivity | reflexivity | discriminate].
  - assert (length (ints [1; 2]%Z) < arity add_4) as K by (simpl; lia).
    destruct (wrapper_chain_invariant
                def_name arity body add_4 _ (VInt 3) s0 K)
      as (_ & (_ & _ & Step & _)).
    apply Step. simpl; lia.
Defined.

Lemma several_values_in_one_call_rejected_witness :
  (exists g,
     call_each (curry (Def add_4)) (ints [1; 2]%Z) s0 = (Return g, s0)
     /\ call g (ints [3; 4]%Z) s0
        = (Raise (TypeError (too_many_positional "get_one_arg" 1 2)), s0))
  /\ (1 <= 2 ->
      exists h g,
        curry_tudo (Def add_4) = Return h
        /\ call_each h (ints [1; 2]%Z) s0 = (Return g, s0)
        /\ call g (ints [3; 4]%Z) s0
           = (Raise (TypeError (too_many_positional "recebe_ultimo" 1 2)),
              s0)).
Proof.
  apply (several_values_in_one_call_rejected
           def_name arity body add_4 (ints [1; 2]%Z) (ints [3; 4]%Z) s0);
    simpl; lia.
Defined.

Lemma zero_values_in_one_call_witness :
  exists g,
    call_each (curry (Def add_4)) (ints [1; 2]%Z) s0 = (Return g, s0)
    /\ call g [] s0
       = (Raise (TypeError (missing_positional "get_one_arg" 1)), s0).
Proof.
  assert (length (ints [1; 2]%Z) < arity add_4) as K by (simpl; lia).
  exact (proj1 (zero_values_in_one_call def_name arity body add_4 _ s0 K)).
Defined.

(** C6, as stated, fails for [curry_tudo]: a call with no value of what it
    returns for [soma_4_curried_tudo] raises nothing. *)
Lemma curry_tudo_first_stage_accepts_no_value :
  exists h,
    curry_tudo (Def soma_4_curried_tudo) = Return h
    /\ call h [] s0
       = (Return
            (recebe_ultimo
               (func_sem_ultimo (func_sem_ultimo (Def soma_4_curried_tudo)))
               []),
          s0).
Proof. eexists. split; reflexivity. Qed.

Lemma curry_tudo_rounds_witness :
  curry_tudo (Def add_3) = Return (Def add_3).
Proof.
  destruct (curry_tudo_rounds arity (other_exn := py_exn) add_3)
    as (_ & _ & Unary & _).
  apply Unary. reflexivity.
Defined.

(** [print_sum(3)(5)] prints once under either decorator. *)
Lemma body_executed_exactly_once_witness :
  the_world (snd (call_each (curry (Def print_sum)) (ints [3; 5]%Z) s0))
  = [VInt 8]
  /\ executed (snd (call_each (curry (Def print_sum)) (ints [3; 5]%Z) s0))
     = [(print_sum, ints [3; 5]%Z)].
Proof.
  assert (1 <= arity print_sum) as A1 by (simpl; lia).
  assert (length (ints [3; 5]%Z) = arity print_sum) as L by reflexivity.
  destruct (body_executed_exactly_once def_name arity body print_sum _ s0 A1 L)
    as (_ & _ & Log & World & _).
  split; [exact World | exact Log].
Defined.

End Examples.

(** *** The steps of the walkthrough the final decorators are built from *)

Section Steps.

Context {def : Type} (def_name : def -> string) (arity : def -> nat).
Context {world other_exn : Type}.
Context (body : def -> list (value def) -> world
                -> result other_exn (value def) * world).

Local Abbreviation call := (call def_name arity body).
Local Abbreviation call_each := (call_each def_name arity body).
Local Abbreviation call_chain := (call_chain def_name arity body).
Local Abbreviation unary := (unary def_name arity body).
Local Abbreviation res := (result other_exn (value def)).

(** One value in each call. *)
Definition singles (vs : list (value def)) : list (list (value def)) :=
  map (fun v => [v]) vs.

(** [curry_n_args] of currier_pt.py (line 386): the loop of currier.py, on
    [curry_ultimo]. *)
Definition curry_n_args_pt (n : Z) (func : value def) : value def :=
  for_range (range (n - 1)) curry_ultimo func.

(** "We can keep reapplying [fst_arg_curry] if we also keep applying some
    value to the results" (currier.py, lines 256-266 and 468-492): decorate,
    apply to [v], and again with the next value. *)
Fixpoint decorate_and_apply (f : value def) (vs : list (value def))
    (s : state def world) : res * state def world :=
  match vs with
  | [] => (Return f, s)
  | v :: vs' =>
      match call (fst_arg_curry f) [v] s with
      | (Return g, s') => decorate_and_apply g vs' s'
      | (Raise e, s') => (Raise e, s')
      end
  end.

Lemma call_chain_one (f : value def) (args : list (value def))
    (s : state def world) :
  call_chain f [args] s = call f args s.
Proof. simpl. now destruct (call f args s) as [[g|e] s']. Qed.

Lemma call_chain_cons_eq (f g : value def) (args args' : list (value def))
    (rest : list (list (value def))) (s : state def world) :
  call f args s = call g args' s ->
  call_chain f (args :: rest) s = call_chain g (args' :: rest) s.
Proof. intro H. simpl. now rewrite H. Qed.

Section Layers.

(** [curry_last] and [curry_ultimo] are the same decorator under two pairs
    of names: an outer function that takes any number of values and returns
    an inner one, which takes the last value and calls [func]. *)
Variable outer : value def -> value def.
Variable inner : value def -> list (value def) -> value def.
Hypothesis call_outer :
  forall func args s, call (outer func) args s = (Return (inner func args), s).
Hypothesis call_inner :
  forall func args0 v s,
    call (inner func args0) [v] s = call func (args0 ++ [v]) s.

Lemma layers_full (k : nat) :
  forall func args0 vs s,
    length vs = k ->
    call_chain (for_range k outer func) (args0 :: singles vs) s
    = call func (args0 ++ vs) s.
Proof.
  induction k as [|k IH]; intros func args0 vs s L.
  - destruct vs; [|discriminate L]. rewrite app_nil_r. apply call_chain_one.
  - destruct vs as [|v vs]; [discriminate L|]. injection L as L.
    rewrite for_range_succ. cbn [call_chain singles map].
    rewrite call_outer.
    change (call_chain (inner (for_range k outer func) args0)
              ([v] :: singles vs) s
            = call func (args0 ++ v :: vs) s).
    rewrite (call_chain_cons_eq _ (for_range k outer func) _ (args0 ++ [v])
               _ _ (call_inner _ _ _ _)).
    rewrite IH by assumption. now rewrite <- app_assoc.
Qed.

Lemma layers_partial (k : nat) :
  forall func args0 ws s,
    length ws < k ->
    call_chain (for_range k outer func) (args0 :: singles ws) s
    = (Return (inner (for_range (k - 1 - length ws) outer func)
                 (args0 ++ ws)), s).
Proof.
  induction k as [|k IH]; intros func args0 ws s L; [inversion L|].
  rewrite for_range_succ. cbn [call_chain singles map].
  rewrite call_outer. destruct ws as [|v ws].
  - cbn [call_chain singles map length]. rewrite app_nil_r.
    now replace (S k - 1 - 0) with k by lia.
  - simpl in L.
    change (call_chain (inner (for_range k outer func) args0)
              ([v] :: singles ws) s
            = (Return (inner (for_range (S k - 1 - S (length ws)) outer func)
                         (args0 ++ v :: ws)), s)).
    rewrite (call_chain_cons_eq _ (for_range k outer func) _ (args0 ++ [v])
               _ _ (call_inner _ _ _ _)).
    rewrite IH by lia. rewrite <- app_assoc.
    now replace (S k - 1 - S (length ws)) with (k - 1 - length ws) by lia.
Qed.

End Layers.

Lemma call_each_singles (vs : list (value def)) (f : value def)
    (s : state def world) :
  call_each f vs s = call_chain f (singles vs) s.
Proof. apply call_each_chain. Qed.

Lemma get_one_arg_no_TypeError (func arg : value def)
    (s s' : state def world) (te : type_error) :
  call (curry func) [arg] s <> (Raise (TypeError te), s').
Proof.
  unfold curry. rewrite get_one_arg_step.
  destruct (Currier.call def_name arity body func [arg] s)
    as [[r|[te'|e]] s1]; discriminate.
Qed.

Lemma stageA_beyond (d : def) (vs : list (value def)) (v : value def)
    (s : state def world) :
  arity d <= length vs ->
  call (stageA d vs) [v] s = (Return (stageA d (vs ++ [v])), s).
Proof.
  intro H. unfold stageA, curry. rewrite get_one_arg_step, call_bound.
  rewrite call_def_misfit by (rewrite length_app; simpl; lia).
  destruct (arity_error_TypeError (other_exn := other_exn) (def_name d)
              (arity d) (length (vs ++ [v]))) as [te ->].
  now rewrite bound_snoc.
Qed.

Lemma call_each_cons (f v : value def) (vs : list (value def))
    (s : state def world) :
  call_each f (v :: vs) s
  = match call f [v] s with
    | (Return g, s') => call_each g vs s'
    | (Raise e, s') => (Raise e, s')
    end.
Proof. reflexivity. Qed.

Lemma call_each_beyond (d : def) (ws : list (value def)) :
  forall vs s,
    arity d <= length vs ->
    call_each (stageA d vs) ws s = (Return (stageA d (vs ++ ws)), s).
Proof.
  induction ws as [|w ws IH]; intros vs s H.
  - simpl. now rewrite app_nil_r.
  - rewrite call_each_cons, stageA_beyond by assumption.
    rewrite IH by (rewrite length_app; simpl; lia).
    now rewrite <- app_assoc.
Qed.

(** X1. Decorating with [fst_arg_curry] and applying to a value, again and
    again for each value of [vs], never fails and touches nothing; what it
    leaves, called on the remaining values [rest], does what [func] does on
    all of [vs] followed by [rest]. *)
Theorem decorate_and_apply_binds
    (func : value def) (vs rest : list (value def)) (s : state def world) :
  decorate_and_apply func vs s = (Return (bound func vs), s)
  /\ call (bound func vs) rest s = call func (vs ++ rest) s.
Proof.
  split; [|apply call_bound].
  revert func s. induction vs as [|v vs IH]; intros func s; [reflexivity|].
  cbn [decorate_and_apply]. rewrite call_fst_arg_curry. apply IH.
Qed.

(** X2. Decorating twice or more with [fst_arg_curry] before any value is
    applied gives a function that fails on its second one-value call, with
    the [TypeError] of [get_fst_arg] receiving two values: [func] is never
    called and the state is untouched, whatever [func] is. *)
Theorem fst_arg_curry_reapplied_fails
    (k : nat) (func x y : value def) (more : list (value def))
    (s : state def world) :
  2 <= k ->
  call_each (Nat.iter k fst_arg_curry func) (x :: y :: more) s
  = (Raise (TypeError (too_many_positional "get_fst_arg" 1 2)), s).
Proof.
  intro K. destruct k as [|[|k]]; try lia. reflexivity.
Qed.

Lemma curry_n_args_full
    (n : Z) (func : value def) (args0 vs : list (value def))
    (s : state def world) :
  length vs = Z.to_nat (n - 1) ->
  call_chain (curry_n_args n func) (args0 :: singles vs) s
  = call func (args0 ++ vs) s.
Proof.
  intro L. unfold curry_n_args, range. rewrite <- L.
  now apply (layers_full curry_last get_last_arg).
Qed.

(** X3. [curry_n_args(n, func)], in both files: after a first call with any
    values [args0] and [n - 1] calls with one value each, [func] is called
    on all the values received, in order, whatever the number of parameters
    of [func]; until then every call returns the inner closure holding the
    values so far and leaves the state untouched.  For [n] below two,
    [curry_n_args(n, func)] is [func]. *)
Theorem curry_n_args_evaluates_at_last_call
    (n : Z) (func : value def) (args0 vs : list (value def))
    (s : state def world) :
  length vs = Z.to_nat (n - 1) ->
  (call_chain (curry_n_args n func) (args0 :: singles vs) s
   = call func (args0 ++ vs) s
   /\ forall ws,
        length ws < length vs ->
        call_chain (curry_n_args n func) (args0 :: singles ws) s
        = (Return (get_last_arg
                     (for_range (length vs - 1 - length ws) curry_last func)
                     (args0 ++ ws)), s))
  /\ (call_chain (curry_n_args_pt n func) (args0 :: singles vs) s
      = call func (args0 ++ vs) s
      /\ forall ws,
           length ws < length vs ->
           call_chain (curry_n_args_pt n func) (args0 :: singles ws) s
           = (Return (recebe_ultimo
                        (for_range (length vs - 1 - length ws)
                           curry_ultimo func)
                        (args0 ++ ws)), s)).
Proof.
  intro L. unfold curry_n_args, curry_n_args_pt, range. rewrite <- L.
  repeat split.
  - now apply (layers_full curry_last get_last_arg).
  - intros ws W. now apply (layers_partial curry_last get_last_arg).
  - now apply (layers_full curry_ultimo recebe_ultimo).
  - intros ws W. now apply (layers_partial curry_ultimo recebe_ultimo).
Qed.

Lemma curry_n_args_each
    (n : Z) (func : value def) (vs : list (value def))
    (s : state def world) :
  (1 <= n)%Z ->
  length vs = Z.to_nat n ->
  call_each (curry_n_args n func) vs s = call func vs s.
Proof.
  intros N L. destruct vs as [|v vs]; [simpl in L; lia|].
  rewrite call_each_singles. cbn [singles map].
  apply (curry_n_args_full n func [v] vs s). simpl in L. lia.
Qed.

(** X4. [curry_n_args(n, func)] fed [n] values one at a time does what
    [func] does on the [n] values.  When [func] is a target whose number of
    parameters is not [n], that is the target's own arity [TypeError],
    raised at the [n]-th call and not before, in an untouched state. *)
Theorem curry_n_args_one_at_a_time
    (n : Z) (func : value def) (d : def) (vs : list (value def))
    (s : state def world) :
  (1 <= n)%Z ->
  length vs = Z.to_nat n ->
  call_each (curry_n_args n func) vs s = call func vs s
  /\ (func = Def d ->
      arity d <> Z.to_nat n ->
      call_each (curry_n_args n func) vs s
      = (Raise (arity_error _ (def_name d) (arity d) (Z.to_nat n)), s)).
Proof.
  intros N L. split; [now apply curry_n_args_each|].
  intros -> Mis. rewrite curry_n_args_each, <- L by assumption.
  apply call_def_misfit. congruence.
Qed.


(** X7. A one-value call of a [curry] wrapper never raises [TypeError],
    whatever it wraps; so the handler of a second [curry] around it is
    never entered, and a function decorated twice with [curry] does, on any
    chain of one-value calls, what the function decorated once does. *)
Theorem curry_twice_is_curry
    (func v : value def) (vs : list (value def)) (s : state def world) :
  (forall te s', call (curry func) [v] s <> (Raise (TypeError te), s'))
  /\ call_each (curry (curry func)) (v :: vs) s
     = call_each (curry func) (v :: vs) s.
Proof.
  split; [intros te s'; apply get_one_arg_no_TypeError|].
  rewrite !call_each_cons.
  assert (E : call (curry (curry func)) [v] s = call (curry func) [v] s).
  { unfold curry at 1. rewrite get_one_arg_step.
    pose proof (fun te s' => get_one_arg_no_TypeError func v s s' te) as No.
    destruct (Currier.call def_name arity body (curry func) [v] s)
      as [[r|[te|e]] s1]; try reflexivity.
    now destruct (No te s1). }
  now rewrite E.
Qed.

(** X8. Once the target has raised a [TypeError] on its full list of
    arguments and [curry] has answered with a wrapper, every further
    one-value call returns one more wrapper: the chain never fails, never
    returns a result, and the state stays the one the failed run left, so
    the target is not run again. *)
Theorem wrappers_forever_after_TypeError
    (d : def) (vs ws : list (value def)) (s s' : state def world)
    (te : type_error) :
  1 <= arity d ->
  length vs = arity d ->
  call (Def d) vs s = (Raise (TypeError te), s') ->
  call_each (curry (Def d)) (vs ++ ws) s
  = (Return (stageA d (vs ++ ws)), s').
Proof.
  intros A1 L Direct.
  rewrite call_each_app, curry_full, Direct by assumption.
  apply call_each_beyond. lia.
Qed.

(** X9. A target without parameters is never run by [curry]: every chain of
    one-value calls on the decorated function returns a wrapper and leaves
    the state untouched. *)
Theorem curry_never_runs_parameterless_target
    (d : def) (ws : list (value def)) (s : state def world) :
  arity d = 0 ->
  call_each (curry (Def d)) ws s = (Return (stageA d ws), s).
Proof.
  intro A0. apply (call_each_beyond d ws [] s). simpl. lia.
Qed.

End Steps.

(** *** The decorator that takes an argument *)

Section DecoratorWithArgument.

Context {def : Type} (def_name : def -> string) (arity : def -> nat).
Context {world other_exn : Type}.

(** [curry = curry_last(curry_n_args)] (currier.py, line 411) hands
    [curry_n_args] itself to a decorator: the top-level functions in play
    are [curry_n_args], of two parameters, and the targets. *)
Inductive toplevel : Type :=
| curry_n_args_def
| target (d : def).

Context (body : def -> list (value toplevel) -> world
                -> result other_exn (value toplevel) * world).

Definition toplevel_name (t : toplevel) : string :=
  match t with
  | curry_n_args_def => "curry_n_args"
  | target d => def_name d
  end.

Definition toplevel_arity (t : toplevel) : nat :=
  match t with
  | curry_n_args_def => 2
  | target d => arity d
  end.

(** The body of [curry_n_args(n, func)] computes [n - 1], a [TypeError]
    unless [n] is a number, and loops. *)
Definition toplevel_body (t : toplevel) (args : list (value toplevel))
    (w : world) : result other_exn (value toplevel) * world :=
  match t with
  | target d => body d args w
  | curry_n_args_def =>
      match args with
      | [VInt n; func] => (Return (curry_n_args n func), w)
      | [_; _] =>
          (Raise (TypeError
                    (other_type_error "unsupported operand type(s) for -")),
           w)
      | _ => (Return VNone, w)   (* never run: the arity was checked *)
      end
  end.

Definition curry_with_argument : value toplevel :=
  curry_last (Def curry_n_args_def).

Local Abbreviation call :=
  (call toplevel_name toplevel_arity toplevel_body).
Local Abbreviation call_chain :=
  (call_chain toplevel_name toplevel_arity toplevel_body).

(** X6. With [curry = curry_last(curry_n_args)], the chain
    [curry(n)(func)(v1)...(vn)] does what [func(v1, ..., vn)] does: the two
    decoration calls run the body of [curry_n_args] once, on [n] and
    [func], touch nothing else, and the [n] one-value calls end in the call
    of [func] on the [n] values. *)
Theorem decorator_with_argument
    (n : Z) (func : value toplevel) (vs : list (value toplevel))
    (s : state toplevel world) :
  (1 <= n)%Z ->
  length vs = Z.to_nat n ->
  call_chain curry_with_argument ([VInt n] :: [func] :: singles vs) s
  = call func vs
      (mkState (the_world s)
         (executed s ++ [(curry_n_args_def, [VInt n; func])])).
Proof.
  intros N L.
  cbn [Currier.call_chain Currier.call curry_with_argument curry_last
       app length toplevel_arity Nat.eqb].
  unfold run_body. cbn [toplevel_body].
  rewrite <- call_each_singles. now apply curry_n_args_each.
Qed.

End DecoratorWithArgument.

Arguments toplevel : clear implicits.

(** *** The steps at work on the functions of the files *)

Module StepsExamples.

Import Examples.

Local Abbreviation call := (call def_name arity body).
Local Abbreviation call_each := (call_each def_name arity body).
Local Abbreviation call_chain := (call_chain def_name arity body).

Example puts_3_to_sum :                    (* currier.py:259-266 *)
  call_chain
    (fst_arg_curry (get_other_args (Def add_3_values) (VInt 3)))
    [ints [5]%Z; ints [7]%Z] s0
  = (Return (VInt 15), ran add_3_values (ints [3; 5; 7]%Z)).
Proof. reflexivity. Qed.

Example applied_1_2_3 :                    (* currier.py:468-492 *)
  call (bound (Def add_3_values) (ints [1; 2; 3]%Z)) [] s0
  = (Return (VInt 6), ran add_3_values (ints [1; 2; 3]%Z)).
Proof. reflexivity. Qed.

Lemma fst_arg_curry_reapplied_fails_witness :   (* currier.py:244-252 *)
  call_each (fst_arg_curry (fst_arg_curry (Def add_3_values)))
    (ints [3; 5; 7]%Z) s0
  = (Raise (TypeError (too_many_positional "get_fst_arg" 1 2)), s0).
Proof.
  apply (fst_arg_curry_reapplied_fails def_name arity body 2
           (Def add_3_values) (VInt 3) (VInt 5) (ints [7]%Z) s0).
  lia.
Defined.

Lemma curry_n_args_evaluates_at_last_call_witness :
  call_chain (curry_n_args 3 (Def add_3_values))
    (ints [3]%Z :: singles (ints [5; 7]%Z)) s0
  = (Return (VInt 15), ran add_3_values (ints [3; 5; 7]%Z)).
Proof.
  assert (length (ints [5; 7]%Z) = Z.to_nat (3 - 1)) as L by reflexivity.
  exact (proj1 (proj1 (curry_n_args_evaluates_at_last_call
                         def_name arity body 3 (Def add_3_values)
                         (ints [3]%Z) (ints [5; 7]%Z) s0 L))).
Defined.

(** [curry_n_args(2, add_3_values)(3)(5)]: the wrong count shows at the
    second call, as the error of [add_3_values]. *)
Lemma curry_n_args_one_at_a_time_witness :
  call_each (curry_n_args 2 (Def add_3_values)) (ints [3; 5]%Z) s0
  = (Raise (TypeError (missing_positional "add_3_values" 1)), s0).
Proof.
  assert (1 <= 2)%Z as N by lia.
  assert (length (ints [3; 5]%Z) = Z.to_nat 2) as L by reflexivity.
  apply (proj2 (curry_n_args_one_at_a_time
                  def_name arity body 2 (Def add_3_values) add_3_values
                  (ints [3; 5]%Z) s0 N L));
    [reflexivity | simpl; lia].
Defined.


(** After [add_4(1)(2)(3)(None)], two more values: two more wrappers. *)
Lemma wrappers_forever_after_TypeError_witness :
  let args := ints [1; 2; 3]%Z ++ [VNone] in
  call_each (curry (Def add_4)) (args ++ ints [4; 5]%Z) s0
  = (Return (stageA add_4 (args ++ ints [4; 5]%Z)), ran add_4 args).
Proof.
  apply (wrappers_forever_after_TypeError
           def_name arity body add_4 _ _ s0 (ran add_4 _)
           (other_type_error "unsupported operand type(s) for +"));
    [simpl; lia | reflexivity | reflexivity].
Defined.

(** The functions of the decorator with an argument: the target of
    currier.py, line 413, and a stand-in without parameters. *)
Inductive decorated : Type :=
| add_4_curried         (* currier.py:414  x + y + z + w *)
| no_params.            (* stand-in: def no_params(): return None *)

Definition decorated_name (d : decorated) : string :=
  match d with
  | add_4_curried => "add_4_curried"
  | no_params => "no_params"
  end.

Definition decorated_arity (d : decorated) : nat :=
  match d with
  | add_4_curried => 4
  | no_params => 0
  end.

Definition decorated_body (d : decorated)
    (args : list (value (toplevel decorated))) (w : unit)
  : result py_exn (value (toplevel decorated)) * unit :=
  match d, args with
  | add_4_curried, [VInt x; VInt y; VInt z; VInt v] =>
      (Return (VInt (x + y + z + v)), w)
  | add_4_curried, [_; _; _; _] =>
      (Raise (TypeError
                (other_type_error "unsupported operand type(s) for +")), w)
  | _, _ => (Return VNone, w)
  end.

Local Abbreviation top_call_chain :=
  (Currier.call_chain (toplevel_name decorated_name)
     (toplevel_arity decorated_arity) (toplevel_body decorated_body)).
Local Abbreviation top_call_each :=
  (Currier.call_each (toplevel_name decorated_name)
     (toplevel_arity decorated_arity) (toplevel_body decorated_body)).

Definition t0 : state (toplevel decorated) unit := mkState tt [].

(** [curry(4)(add_4_curried)(1)(2)(3)(4) == 10] (currier.py:413-417). *)
Lemma decorator_with_argument_witness :
  top_call_chain curry_with_argument
    ([VInt 4] :: [Def (target add_4_curried)]
       :: singles (map VInt [1; 2; 3; 4]%Z)) t0
  = (Return (VInt 10),
     mkState tt
       [(curry_n_args_def, [VInt 4; Def (target add_4_curried)]);
        (target add_4_curried, map VInt [1; 2; 3; 4]%Z)]).
Proof.
  assert (1 <= 4)%Z as N by lia.
  assert (length (map (@VInt (toplevel decorated)) [1; 2; 3; 4]%Z)
          = Z.to_nat 4) as L by reflexivity.
  rewrite (decorator_with_argument decorated_name decorated_arity
             decorated_body 4 (Def (target add_4_curried)) _ t0 N L).
  reflexivity.
Defined.

Lemma curry_never_runs_parameterless_target_witness :
  top_call_each (curry (Def (target no_params))) (map VInt [1; 2]%Z) t0
  = (Return (stageA (target no_params) (map VInt [1; 2]%Z)), t0).
Proof.
  apply (curry_never_runs_parameterless_target
           (toplevel_name decorated_name) (toplevel_arity decorated_arity)
           (toplevel_body decorated_body)).
  reflexivity.
Defined.

End StepsExamples.

End Currier.

(** ** The Y decorator ([decoradorY_pt.py]) *)

Module DecoradorY.

Section Semantics.

(** The functions handed to the decorators.  They call the functions they
    receive as arguments, and nothing bounds how often: a call is evaluated
    with a budget of nested calls, and [None] is the answer of a budget that
    ran out. *)
Context {def : Type} (def_name : def -> string) (arity : def -> nat).
Context {other_exn : Type}.

(** Python values; the two closure constructors are the inner functions of
    [auto_aplicador] and of [auto_aplica_func_interna]. *)
Inductive value : Type :=
| VNone
| VInt (z : Z)
| Def (d : def)
| func_auto_aplicada (func : value)
| nova_func (func : value).

Local Abbreviation res := (result other_exn value).

(** A body is given the means to call a value, and its arguments. *)
Context (body : def ->
                (value -> list value -> option res) ->
                list value -> option res).

Definition func_name (f : value) : string :=
  match f with
  | VNone => "NoneType"
  | VInt _ => "int"
  | Def d => def_name d
  | func_auto_aplicada _ => "func_auto_aplicada"
  | nova_func _ => "nova_func"
  end.

Definition not_callable : exn other_exn :=
  TypeError (other_type_error "object is not callable").

Definition auto_aplicador (func : value) : value :=
  func_auto_aplicada func.

Definition auto_aplica_func_interna (func : value) : value :=
  nova_func func.

Definition decorador_y (func : value) : value :=
  auto_aplicador (auto_aplica_func_interna func).

(** The call of [f] on [args] with a budget of [fuel] nested calls. *)
Fixpoint call (fuel : nat) (f : value) (args : list value) : option res :=
  match fuel with
  | O => None
  | S fuel' =>
      match f with
      | VNone | VInt _ => Some (Raise not_callable)
      | Def d =>
          if length args =? arity d then body d (call fuel') args
          else Some (Raise (arity_error _ (def_name d) (arity d)
                              (length args)))
      | func_auto_aplicada func =>
          match args with
          | [param] => call fuel' func [func; param]
          | _ => Some (Raise (arity_error _ "func_auto_aplicada" 1
                                (length args)))
          end
      | nova_func func =>
          match args with
          | [func_param; t] =>
              let func_param := auto_aplicador func_param in
              call fuel' func [func_param; t]
          | _ => Some (Raise (arity_error _ "nova_func" 2 (length args)))
          end
      end
  end.

(** The call of [f] on [args] ends with outcome [o]. *)
Definition evaluates (f : value) (args : list value) (o : res) : Prop :=
  exists fuel, call fuel f args = Some o.

(** A unary callable: whatever the budget, a call with any number of
    arguments but one is rejected by the callable's own signature. *)
Definition unary (f : value) : Prop :=
  forall args fuel,
    length args <> 1 ->
    call (S fuel) f args
    = Some (Raise (arity_error _ (func_name f) 1 (length args))).

(** *** The equations of the three decorators *)

Lemma call_auto_aplicador (fuel : nat) (g x : value) :
  call (S fuel) (auto_aplicador g) [x] = call fuel g [g; x].
Proof. reflexivity. Qed.

Lemma call_auto_aplica_func_interna (fuel : nat) (F g t : value) :
  call (S fuel) (auto_aplica_func_interna F) [g; t]
  = call fuel F [auto_aplicador g; t].
Proof. reflexivity. Qed.

Lemma call_decorador_y (fuel : nat) (F t : value) :
  call (S (S fuel)) (decorador_y F) [t] = call fuel F [decorador_y F; t].
Proof. reflexivity. Qed.

Lemma unary_auto_aplicador (g : value) : unary (auto_aplicador g).
Proof. intros [|a [|b args]] fuel H; simpl in *; congruence. Qed.

Lemma evaluates_step (f : value) (args : list value)
    (g : value) (args' : list value) :
  (forall fuel, call (S fuel) f args = call fuel g args') ->
  forall o, evaluates f args o <-> evaluates g args' o.
Proof.
  intros Step o. split; intros [fuel H].
  - destruct fuel as [|fuel]; [discriminate H|].
    exists fuel. now rewrite <- Step.
  - exists (S fuel). now rewrite Step.
Qed.

(** C10. [auto_aplicador(g)(x)] is [g(g, x)], and
    [auto_aplica_func_interna(F)(g, t)] is [F(auto_aplicador(g), t)]; hence
    [decorador_y(F)(t)] is [F(r, t)] for the unary function
    [r = auto_aplicador(auto_aplica_func_interna(F))], which called on any
    [u] does what [decorador_y(F)(u)] does.  Each of these calls ends with
    an outcome exactly when the other does, with the same outcome; the call
    on the left takes one nested call more than the one on the right (two
    for [decorador_y]). *)
Theorem decorador_y_unfolds (F t : value) :
  (forall g x o,
     evaluates (auto_aplicador g) [x] o <-> evaluates g [g; x] o)
  /\ (forall g o,
        evaluates (auto_aplica_func_interna F) [g; t] o
        <-> evaluates F [auto_aplicador g; t] o)
  /\ exists r,
       unary r
       /\ (forall u fuel, call fuel r [u] = call fuel (decorador_y F) [u])
       /\ (forall o,
             evaluates (decorador_y F) [t] o <-> evaluates F [r; t] o)
       /\ (forall fuel,
             call (S (S fuel)) (decorador_y F) [t] = call fuel F [r; t]).
Proof.
  split; [|split].
  - intros g x. apply evaluates_step. intro fuel. apply call_auto_aplicador.
  - intro g. apply evaluates_step. intro fuel.
    apply call_auto_aplica_func_interna.
  - exists (auto_aplicador (auto_aplica_func_interna F)).
    split; [apply unary_auto_aplicador|].
    split; [reflexivity|]. split.
    + intro o. split; intros [fuel H].
      * destruct fuel as [|[|fuel]]; try discriminate H.
        exists fuel. now rewrite <- call_decorador_y.
      * exists (S (S fuel)). now rewrite call_decorador_y.
    + intro fuel. apply call_decorador_y.
Qed.

End Semantics.

Arguments value : clear implicits.

(** *** The factorial of the file *)

Module Fact.

(** The one function the file hands to [decorador_y] for its value:
    [[
    def fact(rec, n):
        if n==0:
            return 1
        else:
            return n*rec(n-1)
    ]] *)
Inductive py_def : Type :=
| fact.

Inductive py_exn : Type := .

Definition def_name (d : py_def) : string := "fact".

Definition arity (d : py_def) : nat := 2.

Local Abbreviation val := (value py_def).
Local Abbreviation res := (result py_exn val).

Definition unsupported_operand (op : string) : exn py_exn :=
  TypeError
    (other_type_error ("unsupported operand type(s) for " ++ op)%string).

(** [a == b] is identity on what is not a number; [a - b] and [a * b] are
    defined on integers, a [TypeError] on [None] and on functions. *)
Definition py_eq (a b : val) : bool :=
  match a, b with
  | VInt x, VInt y => (x =? y)%Z
  | VNone, VNone => true
  | _, _ => false
  end.

Definition py_sub (a b : val) : res :=
  match a, b with
  | VInt x, VInt y => Return (VInt (x - y))
  | _, _ => Raise (unsupported_operand "-")
  end.

Definition py_mul (a b : val) : res :=
  match a, b with
  | VInt x, VInt y => Return (VInt (x * y))
  | _, _ => Raise (unsupported_operand "*")
  end.

(** Sequencing of evaluations that may fail or run out of budget. *)
Definition bind (c : option res) (k : val -> option res) : option res :=
  match c with
  | None => None
  | Some (Raise e) => Some (Raise e)
  | Some (Return v) => k v
  end.

Notation "x <- c ;; k" := (bind c (fun x => k))
  (at level 61, c at next level, right associativity).

Definition body (d : py_def) (call : val -> list val -> option res)
    (args : list val) : option res :=
  match d, args with
  | fact, [rec; n] =>
      if py_eq n (VInt 0) then Some (Return (VInt 1))
      else
        m <- Some (py_sub n (VInt 1)) ;;
        r <- call rec [m] ;;
        Some (py_mul n r)
  | _, _ => Some (Return VNone)   (* never run: the arity was checked *)
  end.

Local Abbreviation call := (call def_name arity body).
Local Abbreviation evaluates := (evaluates def_name arity body).
Local Abbreviation unary := (unary def_name arity body).

(** The mathematical factorial, on the integers of Python. *)
Definition factorial (n : nat) : Z := Z.of_nat (Factorial.fact n).

Lemma factorial_succ (n : nat) :
  factorial (S n) = (Z.of_nat (S n) * factorial n)%Z.
Proof.
  unfold factorial. rewrite <- Nat2Z.inj_mul. reflexivity.
Qed.

Example fact_5 :                            (* decoradorY_pt.py:331 *)
  call 18 (decorador_y (Def fact)) [VInt 5] = Some (Return (VInt 120)).
Proof. reflexivity. Qed.

(** One unfolding of the decorated [fact] on a positive integer. *)
Lemma call_fact_pos (fuel : nat) (z : Z) :
  (z <> 0)%Z ->
  call (S (S (S fuel))) (decorador_y (Def fact)) [VInt z]
  = (r <- call fuel (decorador_y (Def fact)) [VInt (z - 1)] ;;
     Some (py_mul (VInt z) r)).
Proof.
  intro NZ. rewrite call_decorador_y.
  cbn [DecoradorY.call length arity Nat.eqb body py_eq].
  now rewrite (proj2 (Z.eqb_neq z 0) NZ).
Qed.

Lemma call_fact_nat (n : nat) :
  forall fuel,
    3 * n + 3 <= fuel ->
    call fuel (decorador_y (Def fact)) [VInt (Z.of_nat n)]
    = Some (Return (VInt (factorial n))).
Proof.
  induction n as [|n IH]; intros fuel Enough.
  - destruct fuel as [|[|[|fuel]]]; try lia. reflexivity.
  - destruct fuel as [|[|[|fuel]]]; try lia.
    rewrite call_fact_pos by lia.
    replace (Z.of_nat (S n) - 1)%Z with (Z.of_nat n) by lia.
    rewrite IH by lia. now rewrite factorial_succ.
Qed.

(** Below zero the recursion never reaches [n == 0]: no budget suffices. *)
Lemma call_fact_negative (fuel : nat) :
  forall z, (z < 0)%Z -> call fuel (decorador_y (Def fact)) [VInt z] = None.
Proof.
  induction fuel as [fuel IH] using lt_wf_ind. intros z Neg.
  destruct fuel as [|[|[|fuel]]]; try reflexivity.
  rewrite call_fact_pos by lia.
  now rewrite IH by lia.
Qed.

(** C8. [decorador_y(fact)] is a unary function; called on a natural number
    [n] it returns the factorial of [n], with any budget of at least
    [3 * n + 3] nested calls; and [fact(5)] is [120]. *)
Theorem fact_computes_factorial :
  unary (decorador_y (Def fact))
  /\ (forall n : nat,
        evaluates (decorador_y (Def fact)) [VInt (Z.of_nat n)]
          (Return (VInt (factorial n)))
        /\ forall fuel,
             3 * n + 3 <= fuel ->
             call fuel (decorador_y (Def fact)) [VInt (Z.of_nat n)]
             = Some (Return (VInt (factorial n))))
  /\ evaluates (decorador_y (Def fact)) [VInt 5] (Return (VInt 120)).
Proof.
  split; [apply unary_auto_aplicador|]. split.
  - intro n. split.
    + exists (3 * n + 3). now apply call_fact_nat.
    + apply call_fact_nat.
  - exists 18. reflexivity.
Qed.

End Fact.

(** *** Recursion through the decorator *)

Section Recursion.

Context {def : Type} (def_name : def -> string) (arity : def -> nat).
Context {other_exn : Type}.

Local Abbreviation res := (result other_exn (value def)).

Context (body : def ->
                (value def -> list (value def) -> option res) ->
                list (value def) -> option res).

Local Abbreviation call := (call def_name arity body).

(** A function [F(rec, x)], the arguments it is meant for, a measure that
    its recursive calls decrease, and what its outcome on an argument must
    be. *)
Variable F : def.
Variable domain : value def -> Prop.
Variable measure : value def -> nat.
Variable spec : value def -> res -> Prop.

Lemma call_decorated (fuel : nat) (x : value def) :
  arity F = 2 ->
  call (S (S (S fuel))) (decorador_y (Def F)) [x]
  = body F (call fuel) [decorador_y (Def F); x].
Proof.
  intro A2. rewrite call_decorador_y.
  cbn [DecoradorY.call length]. now rewrite A2.
Qed.

(** X10. Recursion by [decorador_y].  Let the body of a two-parameter
    function [F(rec, x)] meet [spec] on every argument of [domain] as soon
    as the calls [rec(y)] it makes on arguments of [domain] of smaller
    measure end with outcomes that meet [spec].  Then [decorador_y(F)(x)]
    ends, on every [x] of [domain], with an outcome that meets [spec],
    within [3 * measure x + 3] nested calls. *)
Theorem decorador_y_recursion :
  arity F = 2 ->
  (forall (rec_call : value def -> list (value def) -> option res)
          (rec x : value def),
      domain x ->
      (forall y, domain y -> measure y < measure x ->
                 exists o, rec_call rec [y] = Some o /\ spec y o) ->
      exists o, body F rec_call [rec; x] = Some o /\ spec x o) ->
  forall x fuel,
    domain x ->
    3 * measure x + 3 <= fuel ->
    exists o, call fuel (decorador_y (Def F)) [x] = Some o /\ spec x o.
Proof.
  intros A2 Step.
  assert (Gen : forall n x fuel,
             measure x <= n -> domain x -> 3 * measure x + 3 <= fuel ->
             exists o, call fuel (decorador_y (Def F)) [x] = Some o
                       /\ spec x o).
  { induction n as [|n IH]; intros x fuel M D Enough;
      (destruct fuel as [|[|[|fuel]]]; try lia);
      rewrite call_decorated by assumption;
      apply Step; try assumption; intros y Dy Smaller.
    - lia.
    - apply IH; [lia | assumption | lia]. }
  intros x fuel. now apply (Gen (measure x)).
Qed.

End Recursion.

(** *** [fact] outside the natural numbers, and without the inner decorator *)

Module FactEdges.

Import Fact.

Local Abbreviation call := (call def_name arity body).
Local Abbreviation evaluates := (evaluates def_name arity body).

(** X11. [fact] of a negative integer never ends: the recursion steps away
    from [n == 0], and no number of nested calls suffices. *)
Theorem fact_below_zero_never_ends (z : Z) :
  (z < 0)%Z ->
  (forall fuel, call fuel (decorador_y (Def fact)) [VInt z] = None)
  /\ forall o, ~ evaluates (decorador_y (Def fact)) [VInt z] o.
Proof.
  intro Neg.
  assert (Never : forall fuel,
             call fuel (decorador_y (Def fact)) [VInt z] = None).
  { intro fuel. now apply call_fact_negative. }
  split; [exact Never|].
  intros o [fuel H]. rewrite Never in H. discriminate H.
Qed.

Lemma fact_below_zero_never_ends_witness :
  call 1000 (decorador_y (Def fact)) [VInt (-1)] = None.
Proof.
  apply (fact_below_zero_never_ends (-1)). lia.
Defined.

(** X12. [fact] of [None] or of a function raises the [TypeError] of
    [n - 1], before any recursive call. *)
Theorem fact_of_non_integer (v : value py_def) (fuel : nat) :
  (forall z, v <> VInt z) ->
  call (S (S (S fuel))) (decorador_y (Def fact)) [v]
  = Some (Raise (unsupported_operand "-")).
Proof.
  intro NotInt. destruct v as [|z| | |]; try reflexivity.
  now destruct (NotInt z).
Qed.

Lemma fact_of_non_integer_witness :
  call 3 (decorador_y (Def fact)) [VNone]
  = Some (Raise (unsupported_operand "-")).
Proof.
  apply (fact_of_non_integer VNone 0). discriminate.
Defined.

(** X13. [auto_aplicador] alone does not make [fact] recursive: [rec] is
    then [fact] itself, of two parameters, and the call [rec(n-1)] raises
    the [TypeError] of a missing argument on every integer but zero. *)
Theorem auto_aplicador_of_fact (z : Z) (fuel : nat) :
  z <> 0%Z ->
  call (S (S (S fuel))) (auto_aplicador (Def fact)) [VInt z]
  = Some (Raise (TypeError (missing_positional "fact" 1)))
  /\ call (S (S fuel)) (auto_aplicador (Def fact)) [VInt 0]
     = Some (Return (VInt 1)).
Proof.
  intro NZ. split; [|reflexivity].
  rewrite call_auto_aplicador.
  cbn [DecoradorY.call length arity Nat.eqb body py_eq].
  now rewrite (proj2 (Z.eqb_neq z 0) NZ).
Qed.

Lemma auto_aplicador_of_fact_witness :
  call 3 (auto_aplicador (Def fact)) [VInt 5]
  = Some (Raise (TypeError (missing_positional "fact" 1))).
Proof.
  apply (auto_aplicador_of_fact 5 0). lia.
Defined.

(** [fact] meets the hypothesis of the recursion theorem. *)
Definition natural (x : value py_def) : Prop :=
  exists n : nat, x = VInt (Z.of_nat n).

Definition size (x : value py_def) : nat :=
  match x with
  | VInt z => Z.to_nat z
  | _ => 0
  end.

Definition returns_factorial (x : value py_def)
    (o : result py_exn (value py_def)) : Prop :=
  exists n : nat, x = VInt (Z.of_nat n) /\ o = Return (VInt (factorial n)).

Lemma fact_step
    (rec_call : value py_def -> list (value py_def)
                -> option (result py_exn (value py_def)))
    (rec x : value py_def) :
  natural x ->
  (forall y, natural y -> size y < size x ->
             exists o, rec_call rec [y] = Some o /\ returns_factorial y o) ->
  exists o, body fact rec_call [rec; x] = Some o /\ returns_factorial x o.
Proof.
  intros [n ->] Rec. destruct n as [|n].
  - exists (Return (VInt 1)). split; [reflexivity|]. now exists 0.
  - destruct (Rec (VInt (Z.of_nat n))) as (o & Call & m & E & ->).
    + now exists n.
    + simpl. lia.
    + injection E as E. apply Nat2Z.inj in E. subst m.
      exists (Return (VInt (factorial (S n)))). split; [|now exists (S n)].
      cbn [body py_eq]. rewrite (proj2 (Z.eqb_neq _ 0)) by lia.
      cbn [bind py_sub].
      replace (Z.of_nat (S n) - 1)%Z with (Z.of_nat n) by lia.
      rewrite Call. cbn [bind py_mul]. now rewrite factorial_succ.
Qed.

Lemma decorador_y_recursion_witness :
  exists o,
    call 18 (decorador_y (Def fact)) [VInt 5] = Some o
    /\ returns_factorial (VInt 5) o.
Proof.
  apply (decorador_y_recursion def_name arity body fact
           natural size returns_factorial);
    [reflexivity | exact fact_step | now exists 5 | simpl; lia].
Defined.

End FactEdges.

End DecoradorY.

(** ** Functions as code and environment

    The remaining steps of the walkthroughs define functions that call
    functions of the enclosing file by name, print, and recurse.  Here a
    function value is the name of a [def] of the file together with the
    values of the variables it closes over; the body of every [def] is
    given the means to call a value, and acts on what has been printed.  As
    in [DecoradorY], a call is evaluated with a budget of nested calls. *)

Module Closures.

(** The two shapes of parameter list in the files: a fixed number of
    positional parameters, or one star parameter. *)
Inductive signature : Type :=
| positional (n : nat)
| star_args.

Section Semantics.

Context {fn : Type} (fn_name : fn -> string) (fn_sig : fn -> signature).
Context {other_exn : Type}.

Inductive value : Type :=
| VNone
| VInt (z : Z)
| Fun (f : fn) (env : list value).

(** What has been printed, one entry for each call of [print]. *)
Definition stdout : Type := list string.

(** A computation acts on the output and ends with a value or an exception,
    unless its budget runs out. *)
Definition M (A : Type) : Type :=
  stdout -> option (result other_exn A * stdout).

Definition ret {A : Type} (a : A) : M A :=
  fun out => Some (Return a, out).

Definition raise {A : Type} (e : exn other_exn) : M A :=
  fun out => Some (Raise e, out).

Definition bind {A B : Type} (c : M A) (k : A -> M B) : M B :=
  fun out =>
    match c out with
    | None => None
    | Some (Raise e, out') => Some (Raise e, out')
    | Some (Return a, out') => k a out'
    end.

Definition print (line : string) : M unit :=
  fun out => Some (Return tt, out ++ [line]).

Definition of_result {A : Type} (r : result other_exn A) : M A :=
  fun out => Some (r, out).

(** The body of a [def]: given the means to call a value, the values of its
    free variables and its arguments. *)
Context (body : fn -> (value -> list value -> M value) ->
                list value -> list value -> M value).

Definition not_callable : exn other_exn :=
  TypeError (other_type_error "object is not callable").

Fixpoint call (fuel : nat) (f : value) (args : list value) : M value :=
  match fuel with
  | O => fun _ => None
  | S fuel' =>
      match f with
      | VNone | VInt _ => raise not_callable
      | Fun c env =>
          match fn_sig c with
          | positional n =>
              if length args =? n then body c (call fuel') env args
              else raise (arity_error _ (fn_name c) n (length args))
          | star_args => body c (call fuel') env args
          end
      end
  end.

(** [f(args1)(args2)...]: each call with the same budget. *)
Fixpoint call_chain (fuel : nat) (f : value) (argss : list (list value))
  : M value :=
  match argss with
  | [] => ret f
  | args :: argss' =>
      bind (call fuel f args) (fun g => call_chain fuel g argss')
  end.

Lemma call_positional (fuel : nat) (c : fn) (env args : list value)
    (n : nat) (out : stdout) :
  fn_sig c = positional n ->
  length args = n ->
  call (S fuel) (Fun c env) args out = body c (call fuel) env args out.
Proof.
  intros Sig L. simpl. rewrite Sig. now rewrite (proj2 (Nat.eqb_eq _ _) L).
Qed.

Lemma call_misfit (fuel : nat) (c : fn) (env args : list value)
    (n : nat) (out : stdout) :
  fn_sig c = positional n ->
  length args <> n ->
  call (S fuel) (Fun c env) args out
  = Some (Raise (arity_error _ (fn_name c) n (length args)), out).
Proof.
  intros Sig L. simpl. rewrite Sig. now rewrite (proj2 (Nat.eqb_neq _ _) L).
Qed.

Lemma call_chain_last (fuel : nat) (f : value) (args : list value)
    (out : stdout) :
  call_chain fuel f [args] out = call fuel f args out.
Proof.
  cbn [call_chain]. unfold bind, ret.
  now destruct (call fuel f args out) as [[[g|e] out']|].
Qed.

Lemma call_chain_next (fuel : nat) (f g : value) (args : list value)
    (rest : list (list value)) (out out' : stdout) :
  call fuel f args out = Some (Return g, out') ->
  call_chain fuel f (args :: rest) out = call_chain fuel g rest out'.
Proof. intro H. cbn [call_chain]. unfold bind. now rewrite H. Qed.

End Semantics.

Arguments value : clear implicits.
Arguments M : clear implicits.

Notation "x <- c ;; k" := (bind c (fun x => k))
  (at level 61, c at next level, right associativity).

(** *** The first steps of currier.py *)

Module CurrierSteps.

Section Targets.

(** The functions handed to the decorators, as before. *)
Context {def : Type} (def_name : def -> string) (arity : def -> nat).
Context {other_exn : Type}.

(** The [def]s of the file, each inner one after the function that
    creates it. *)
Inductive fn : Type :=
| usual_add             (* currier.py:33 *)
| add_constructor       (* currier.py:57 *)
| add_x                 (*   closes over x *)
| two_step_curry        (* currier.py:140 *)
| gets_fst_arg          (*   closes over uncurried_func *)
| gets_snd_arg          (*   closes over uncurried_func, x *)
| fst_arg_curry         (* currier.py:191 *)
| get_fst_arg           (*   closes over uncurried_func *)
| get_other_args        (*   closes over uncurried_func, x *)
| keep_currying_it      (* currier.py:434 *)
| get_one_arg           (*   closes over func *)
| target (d : def).

Local Abbreviation val := (value fn).
Local Abbreviation comp := (M other_exn val).

Context (target_body : def -> list val -> comp).

Definition fn_name (c : fn) : string :=
  match c with
  | usual_add => "usual_add"
  | add_constructor => "add_constructor"
  | add_x => "add_x"
  | two_step_curry => "two_step_curry"
  | gets_fst_arg => "gets_fst_arg"
  | gets_snd_arg => "gets_snd_arg"
  | fst_arg_curry => "fst_arg_curry"
  | get_fst_arg => "get_fst_arg"
  | get_other_args => "get_other_args"
  | keep_currying_it => "keep_currying_it"
  | get_one_arg => "get_one_arg"
  | target d => def_name d
  end.

Definition fn_sig (c : fn) : signature :=
  match c with
  | usual_add => positional 2
  | get_other_args => star_args
  | target d => positional (arity d)
  | _ => positional 1
  end.

Definition py_add (a b : val) : result other_exn val :=
  match a, b with
  | VInt x, VInt y => Return (VInt (x + y))
  | _, _ =>
      Raise (TypeError (other_type_error "unsupported operand type(s) for +"))
  end.

(** The bodies.  The second list holds the values closed over, in the
    order given above; shapes that the arity check excludes return
    [None]. *)
Definition body (c : fn) (call : val -> list val -> comp)
    (env args : list val) : comp :=
  match c, env, args with
  | usual_add, [], [x; y] => of_result (py_add x y)
  | add_constructor, [], [x] => ret (Fun add_x [x])
  | add_x, [x], [y] => call (Fun usual_add []) [x; y]
  | two_step_curry, [], [uncurried_func] =>
      ret (Fun gets_fst_arg [uncurried_func])
  | gets_fst_arg, [uncurried_func], [x] =>
      ret (Fun gets_snd_arg [uncurried_func; x])
  | gets_snd_arg, [uncurried_func; x], [y] => call uncurried_func [x; y]
  | fst_arg_curry, [], [uncurried_func] =>
      ret (Fun get_fst_arg [uncurried_func])
  | get_fst_arg, [uncurried_func], [x] =>
      ret (Fun get_other_args [uncurried_func; x])
  | get_other_args, [uncurried_func; x], _ => call uncurried_func (x :: args)
  | keep_currying_it, [], [func] => ret (Fun get_one_arg [func])
  | get_one_arg, [func], [arg] =>
      get_one_arg_curried_func <- call (Fun fst_arg_curry []) [func] ;;
      applied_one_arg <- call get_one_arg_curried_func [arg] ;;
      call (Fun keep_currying_it []) [applied_one_arg]
  | target d, [], _ => target_body d args
  | _, _, _ => ret VNone
  end.

Local Abbreviation call := (call fn_name fn_sig body).
Local Abbreviation call_chain := (call_chain fn_name fn_sig body).

(** The values [keep_currying_it] piles up around [func]. *)
Definition piled (func : val) (vs : list val) : val :=
  fold_left (fun f v => Fun get_other_args [f; v]) vs func.

Lemma piled_step (func arg : val) (fuel : nat) (out : stdout) :
  call (S (S fuel)) (Fun get_one_arg [func]) [arg] out
  = Some (Return (Fun get_one_arg [Fun get_other_args [func; arg]]), out).
Proof. reflexivity. Qed.

Lemma call_piled (vs : list val) :
  forall func rest fuel out,
    call (length vs + fuel) (piled func vs) rest out
    = call fuel func (vs ++ rest) out.
Proof.
  induction vs as [|v vs IH]; intros func rest fuel out; [reflexivity|].
  change (piled func (v :: vs)) with (piled (Fun get_other_args [func; v]) vs).
  replace (length (v :: vs) + fuel) with (length vs + S fuel)
    by (simpl; lia).
  now rewrite IH.
Qed.

(** X14. [two_step_curry(f)] takes one value, then one more, and then does
    what [f] does on the two; both calls take exactly one value.  When [f]
    is a target whose number of parameters is not two, the second call
    raises the target's own arity [TypeError], nothing having been
    printed. *)
Theorem two_step_curry_applies_on_second_call
    (uncurried_func x y : val) (fuel : nat) (out : stdout) :
  call (S fuel) (Fun two_step_curry []) [uncurried_func] out
  = Some (Return (Fun gets_fst_arg [uncurried_func]), out)
  /\ call_chain (S fuel) (Fun gets_fst_arg [uncurried_func]) [[x]; [y]] out
     = call fuel uncurried_func [x; y] out
  /\ (forall args,
        length args <> 1 ->
        call (S fuel) (Fun gets_fst_arg [uncurried_func]) args out
        = Some (Raise (arity_error _ "gets_fst_arg" 1 (length args)), out)
        /\ call (S fuel) (Fun gets_snd_arg [uncurried_func; x]) args out
           = Some (Raise (arity_error _ "gets_snd_arg" 1 (length args)), out))
  /\ (forall d,
        uncurried_func = Fun (target d) [] ->
        arity d <> 2 ->
        call_chain (S (S fuel)) (Fun gets_fst_arg [uncurried_func])
          [[x]; [y]] out
        = Some (Raise (arity_error _ (def_name d) (arity d) 2), out)).
Proof.
  split; [reflexivity|]. split; [|split].
  - rewrite (call_chain_next fn_name fn_sig body (S fuel)
               (Fun gets_fst_arg [uncurried_func])
               (Fun gets_snd_arg [uncurried_func; x]) [x] [[y]] out out
               eq_refl).
    now rewrite call_chain_last.
  - intros args L. split.
    + exact (call_misfit fn_name fn_sig body fuel gets_fst_arg
               [uncurried_func] args 1 out eq_refl L).
    + exact (call_misfit fn_name fn_sig body fuel gets_snd_arg
               [uncurried_func; x] args 1 out eq_refl L).
  - intros d -> Mis.
    assert (E : call_chain (S (S fuel)) (Fun gets_fst_arg [Fun (target d) []])
                  [[x]; [y]] out
                = call (S fuel) (Fun (target d) []) [x; y] out).
    { rewrite (call_chain_next fn_name fn_sig body (S (S fuel))
                 (Fun gets_fst_arg [Fun (target d) []])
                 (Fun gets_snd_arg [Fun (target d) []; x]) [x] [[y]] out out
                 eq_refl).
      now rewrite call_chain_last. }
    rewrite E.
    apply (call_misfit fn_name fn_sig body fuel (target d) [] [x; y]
             (arity d) out eq_refl).
    simpl. congruence.
Qed.

(** X15. [keep_currying_it] never applies the function it decorates: the
    decorated function takes any number of values, one in each call, and
    each time returns one more [get_one_arg] wrapper; nothing is printed,
    nothing raised, and the function is not called, whatever it is.  The
    values are kept: the function wrapped at the end, called on further
    values, does what the decorated function does on all of them. *)
Theorem keep_currying_it_never_applies
    (func : val) (vs rest : list val) (fuel : nat) (out : stdout) :
  call (S fuel) (Fun keep_currying_it []) [func] out
  = Some (Return (Fun get_one_arg [func]), out)
  /\ call_chain (S (S fuel)) (Fun get_one_arg [func])
       (map (fun v => [v]) vs) out
     = Some (Return (Fun get_one_arg [piled func vs]), out)
  /\ call (length vs + fuel) (piled func vs) rest out
     = call fuel func (vs ++ rest) out.
Proof.
  split; [reflexivity|]. split; [|apply call_piled].
  revert func. induction vs as [|v vs IH]; intro func; [reflexivity|].
  cbn [map].
  rewrite (call_chain_next fn_name fn_sig body (S (S fuel)) _ _ _ _ out out
             (piled_step func v fuel out)).
  apply IH.
Qed.

End Targets.

Arguments fn : clear implicits.

(** The assertions of the file on these steps, replayed. *)

Inductive decorated : Type :=
| two_step_add          (* currier.py:153  x + y *)
| keep_adding.          (* currier.py:446  x + y + z + w *)

Definition decorated_name (d : decorated) : string :=
  match d with
  | two_step_add => "two_step_add"
  | keep_adding => "keep_adding"
  end.

Definition decorated_arity (d : decorated) : nat :=
  match d with
  | two_step_add => 2
  | keep_adding => 4
  end.

Inductive no_exn : Type := .

Definition decorated_body (d : decorated)
    (args : list (value (fn decorated)))
  : M no_exn (value (fn decorated)) :=
  match d, args with
  | two_step_add, [x; y] => of_result (py_add x y)
  | keep_adding, [VInt x; VInt y; VInt z; VInt w] =>
      ret (VInt (x + y + z + w))
  | keep_adding, [_; _; _; _] =>
      raise (TypeError
               (other_type_error "unsupported operand type(s) for +"))
  | _, _ => ret VNone
  end.

Local Abbreviation run_chain :=
  (call_chain (fn_name decorated_name) (fn_sig decorated_arity)
     (body decorated_body)).

Example curried_add_3_5 :                  (* currier.py:85-87 *)
  run_chain 2 (Fun add_constructor []) [[VInt 3]; [VInt 5]] []
  = Some (Return (VInt 8), []).
Proof. reflexivity. Qed.

Example two_step_add_3_5 :                 (* currier.py:152-156 *)
  run_chain 2 (Fun two_step_curry [])
    [[Fun (target two_step_add) []]; [VInt 3]; [VInt 5]] []
  = Some (Return (VInt 8), []).
Proof. reflexivity. Qed.

Example keep_adding_never_adds :           (* currier.py:445-451 *)
  exists f env,
    run_chain 2 (Fun keep_currying_it [])
      [[Fun (target keep_adding) []];
       [VInt 1]; [VInt 2]; [VInt 3]; [VInt 4]; [VInt 5]] []
    = Some (Return (Fun f env), []).
Proof. eexists. eexists. reflexivity. Qed.

End CurrierSteps.

(** *** The countdowns of decoradorY_pt.py *)

Module Countdown.

Section Targets.

Context {def : Type} (def_name : def -> string) (arity : def -> nat).
Context {other_exn : Type}.

(** The [def]s of the file, each inner one after the function that creates
    it.  The file names two inner functions [nova_func]; the one of
    [altera_param_de_func] is [nova_func_de_altera] here. *)
Inductive fn : Type :=
| t_menos_loop                              (* line 33 *)
| t_menos_recursao                          (* line 40 *)
| t_menos_1a_classe                         (* line 80 *)
| t_menos_1a_classe_recebendo_1a_classe     (* line 111 *)
| t_menos_trololo                           (* line 128 *)
| auto_aplicador                            (* line 143 *)
| func_auto_aplicada                        (*   closes over func *)
| altera_param_de_func                      (* line 236 *)
| nova_func_de_altera                       (*   closes over func *)
| auto_aplica_func_interna                  (* line 263 *)
| nova_func                                 (*   closes over func *)
| t_menos                                   (* line 296 *)
| target (d : def).

Local Abbreviation val := (value fn).
Local Abbreviation comp := (M other_exn val).

Context (target_body : def -> list val -> comp).

Definition fn_name (c : fn) : string :=
  match c with
  | t_menos_loop => "t_menos_loop"
  | t_menos_recursao => "t_menos_recursao"
  | t_menos_1a_classe => "t_menos_1a_classe"
  | t_menos_1a_classe_recebendo_1a_classe =>
      "t_menos_1a_classe_recebendo_1a_classe"
  | t_menos_trololo => "t_menos_trololo"
  | auto_aplicador => "auto_aplicador"
  | func_auto_aplicada => "func_auto_aplicada"
  | altera_param_de_func => "altera_param_de_func"
  | nova_func_de_altera => "nova_func"
  | auto_aplica_func_interna => "auto_aplica_func_interna"
  | nova_func => "nova_func"
  | t_menos => "t_menos"
  | target d => def_name d
  end.

Definition fn_sig (c : fn) : signature :=
  match c with
  | t_menos_loop | t_menos_recursao | auto_aplicador | func_auto_aplicada
  | altera_param_de_func | nova_func_de_altera | auto_aplica_func_interna =>
      positional 1
  | t_menos_1a_classe | t_menos_1a_classe_recebendo_1a_classe
  | t_menos_trololo | nova_func | t_menos =>
      positional 2
  | target d => positional (arity d)
  end.

(** [str] of a value, as an f-string inserts it.  What CPython prints for a
    function holds an address; no statement below depends on it. *)
Definition py_str (v : val) : string :=
  match v with
  | VInt z => NilZero.string_of_int (Z.to_int z)
  | VNone => "None"
  | Fun _ _ => "<function>"
  end.

Definition unsupported_operand (op : string) : exn other_exn :=
  TypeError
    (other_type_error ("unsupported operand type(s) for " ++ op)%string).

Definition py_eq_int (a : val) (z : Z) : bool :=
  match a with
  | VInt x => (x =? z)%Z
  | _ => false
  end.

Definition py_add_int (a : val) (z : Z) : result other_exn val :=
  match a with
  | VInt x => Return (VInt (x + z))
  | _ => Raise (unsupported_operand "+")
  end.

Definition py_sub_int (a : val) (z : Z) : result other_exn val :=
  match a with
  | VInt x => Return (VInt (x - z))
  | _ => Raise (unsupported_operand "-")
  end.

(** The line of every countdown, and the last line of each. *)
Definition line (n : val) : string :=
  ("T menos " ++ py_str n ++ "s para o lançamento")%string.

Definition veio_do_loop : string :=
  "Temos uma decolagem!!
...e veio do loop".

Definition recursao_ftw : string :=
  "Temos uma decolagem!! t_menos_recursao FTW!!".

Definition de_primeira_classe : string :=
  "Temos decolagem de primeira classe!!".

Definition estilo_inception : string :=
  "Temos decolagem de primeira classe no estilo Inception!! ".

Definition sequencia_fracassada : string :=
  "Sequência Fracassada! Astronautas morreram e a culpa é toda sua!!".

Definition nenhuma_recursao : string :=
  "
Temos uma decolagem!!
E nenhuma recursão ocorreu explicitamente!
".

(** [range(t, 0, -1)]: [t], [t - 1], ..., [1]; empty when [t] is not
    positive. *)
Fixpoint count_down (steps : nat) (from : Z) : list Z :=
  match steps with
  | O => []
  | S steps' => from :: count_down steps' (from - 1)
  end.

Definition range_down (t : Z) : list Z := count_down (Z.to_nat t) t.

(** [for n in ns: print(...)]. *)
Fixpoint for_each (ns : list Z) (step : Z -> M other_exn unit)
  : M other_exn unit :=
  match ns with
  | [] => ret tt
  | n :: ns' => _ <- step n ;; for_each ns' step
  end.

Definition body (c : fn) (call : val -> list val -> comp)
    (env args : list val) : comp :=
  match c, env, args with
  | t_menos_loop, [], [t] =>
      match t with
      | VInt z =>
          _ <- for_each (range_down z) (fun n => print (line (VInt n))) ;;
          _ <- print veio_do_loop ;;
          ret VNone
      | _ =>
          raise (TypeError
                   (other_type_error
                      "object cannot be interpreted as an integer"))
      end
  | t_menos_recursao, [], [t] =>
      if py_eq_int t 0 then
        _ <- print recursao_ftw ;; ret VNone
      else
        _ <- print (line t) ;;
        t' <- of_result (py_sub_int t 1) ;;
        _ <- call (Fun t_menos_recursao []) [t'] ;;
        ret VNone
  | t_menos_1a_classe, [], [t_menos_func; t] =>
      if py_eq_int t 0 then
        _ <- print de_primeira_classe ;; ret VNone
      else
        _ <- print (line t) ;;
        t' <- of_result (py_sub_int t 1) ;;
        _ <- call t_menos_func [t'] ;;
        ret VNone
  | t_menos_1a_classe_recebendo_1a_classe, [], [t_menos_1a_classe_func; t] =>
      if py_eq_int t 0 then
        _ <- print estilo_inception ;; ret VNone
      else
        _ <- print (line t) ;;
        t' <- of_result (py_sub_int t 1) ;;
        _ <- call t_menos_1a_classe_func [t_menos_1a_classe_func; t'] ;;
        ret VNone
  | t_menos_trololo, [], [func_ignorado; param_ingnorado] =>
      _ <- print sequencia_fracassada ;; ret VNone
  | auto_aplicador, [], [func] => ret (Fun func_auto_aplicada [func])
  | func_auto_aplicada, [func], [param] => call func [func; param]
  | altera_param_de_func, [], [func] => ret (Fun nova_func_de_altera [func])
  | nova_func_de_altera, [func], [t] =>
      novo_t <- of_result (py_add_int t 1) ;;
      call func [novo_t]
  | auto_aplica_func_interna, [], [func] => ret (Fun nova_func [func])
  | nova_func, [func], [func_param; t] =>
      func_param' <- call (Fun auto_aplicador []) [func_param] ;;
      call func [func_param'; t]
  | t_menos, [], [rec; t] =>
      if py_eq_int t 0 then
        _ <- print nenhuma_recursao ;; ret VNone
      else
        _ <- print (line t) ;;
        t' <- of_result (py_sub_int t 1) ;;
        _ <- call rec [t'] ;;
        ret VNone
  | target d, [], _ => target_body d args
  | _, _, _ => ret VNone
  end.

Local Abbreviation call := (call fn_name fn_sig body).
Local Abbreviation call_chain := (call_chain fn_name fn_sig body).

(** The lines of a countdown from [t]. *)
Definition countdown (t : Z) : list string :=
  map (fun n => line (VInt n)) (range_down t).

(** [t_menos], decorated as in the file (lines 294-296). *)
Definition t_menos_decorated : val :=
  Fun func_auto_aplicada [Fun nova_func [Fun t_menos []]].

Lemma range_down_succ (n : nat) :
  range_down (Z.of_nat (S n)) = Z.of_nat (S n) :: range_down (Z.of_nat n).
Proof.
  unfold range_down. rewrite !Nat2Z.id. cbn [count_down].
  now replace (Z.of_nat (S n) - 1)%Z with (Z.of_nat n) by lia.
Qed.

Lemma countdown_succ (n : nat) :
  countdown (Z.of_nat (S n))
  = line (VInt (Z.of_nat (S n))) :: countdown (Z.of_nat n).
Proof. unfold countdown. now rewrite range_down_succ. Qed.

Lemma countdown_not_positive (z : Z) : (z <= 0)%Z -> countdown z = [].
Proof.
  intro H. unfold countdown, range_down.
  now replace (Z.to_nat z) with 0 by lia.
Qed.

Lemma length_countdown (z : Z) : length (countdown z) = Z.to_nat z.
Proof.
  unfold countdown, range_down. rewrite length_map.
  generalize (Z.to_nat z) as k. intro k. revert z.
  induction k as [|k IH]; intro z; [reflexivity|].
  simpl. now rewrite IH.
Qed.

Lemma for_each_print (f : Z -> string) (ns : list Z) :
  forall out,
    for_each ns (fun n => print (f n)) out
    = Some (Return tt, out ++ map f ns).
Proof.
  induction ns as [|n ns IH]; intro out.
  - simpl. unfold ret. now rewrite app_nil_r.
  - cbn [for_each map]. unfold bind, print. rewrite IH.
    now rewrite <- app_assoc.
Qed.

(** One round of each recursive countdown. *)

Lemma recursao_step (fuel : nat) (z : Z) (out : stdout) :
  z <> 0%Z ->
  call (S fuel) (Fun t_menos_recursao []) [VInt z] out
  = (_ <- call fuel (Fun t_menos_recursao []) [VInt (z - 1)] ;; ret VNone)
      (out ++ [line (VInt z)]).
Proof.
  intro NZ. cbn [Closures.call fn_sig length Nat.eqb body py_eq_int].
  now rewrite (proj2 (Z.eqb_neq z 0) NZ).
Qed.

Lemma self_passing_step (fuel : nat) (f : val) (z : Z) (out : stdout) :
  z <> 0%Z ->
  call (S fuel) (Fun t_menos_1a_classe_recebendo_1a_classe []) [f; VInt z] out
  = (_ <- call fuel f [f; VInt (z - 1)] ;; ret VNone)
      (out ++ [line (VInt z)]).
Proof.
  intro NZ. cbn [Closures.call fn_sig length Nat.eqb body py_eq_int].
  now rewrite (proj2 (Z.eqb_neq z 0) NZ).
Qed.

Lemma t_menos_step (fuel : nat) (z : Z) (out : stdout) :
  z <> 0%Z ->
  call (S (S (S fuel))) t_menos_decorated [VInt z] out
  = (_ <- call fuel t_menos_decorated [VInt (z - 1)] ;; ret VNone)
      (out ++ [line (VInt z)]).
Proof.
  intro NZ. unfold t_menos_decorated.
  cbn [Closures.call fn_sig length Nat.eqb body py_eq_int bind ret].
  unfold bind at 1. cbn [ret].
  cbn [Closures.call fn_sig length Nat.eqb body py_eq_int].
  now rewrite (proj2 (Z.eqb_neq z 0) NZ).
Qed.

(** X16. [t_menos_loop(t)] prints, for every integer [t], the countdown
    lines of [t], [t - 1], ..., [1] and then its last line, and returns
    [None]; for [t] not positive it prints the last line alone.  On a value
    that is not an integer it prints nothing and raises [TypeError]. *)
Theorem t_menos_loop_prints_countdown
    (v : val) (fuel : nat) (out : stdout) :
  (forall z,
     v = VInt z ->
     call (S fuel) (Fun t_menos_loop []) [v] out
     = Some (Return VNone, out ++ countdown z ++ [veio_do_loop])
     /\ length (countdown z) = Z.to_nat z)
  /\ ((forall z, v <> VInt z) ->
      exists te,
        call (S fuel) (Fun t_menos_loop []) [v] out
        = Some (Raise (TypeError te), out)).
Proof.
  split.
  - intros z ->. split; [|apply length_countdown].
    cbn [Closures.call fn_sig length Nat.eqb body].
    unfold bind at 1. rewrite for_each_print.
    unfold bind, print, ret, countdown. now rewrite <- app_assoc.
  - intro NotInt. destruct v as [|z|c env].
    + eexists. reflexivity.
    + now destruct (NotInt z).
    + eexists. reflexivity.
Qed.

Lemma recursao_countdown (n : nat) :
  forall fuel out,
    n + 1 <= fuel ->
    call fuel (Fun t_menos_recursao []) [VInt (Z.of_nat n)] out
    = Some (Return VNone, out ++ countdown (Z.of_nat n) ++ [recursao_ftw]).
Proof.
  induction n as [|n IH]; intros fuel out Enough;
    (destruct fuel as [|fuel]; [lia|]).
  - reflexivity.
  - rewrite recursao_step by lia.
    replace (Z.of_nat (S n) - 1)%Z with (Z.of_nat n) by lia.
    unfold bind. rewrite IH by lia. unfold ret.
    rewrite countdown_succ. now rewrite <- app_assoc.
Qed.

(** X17. [t_menos_recursao(n)] prints, for every natural number [n], what
    the loop prints before its last line, then its own last line, and
    returns [None], within [n + 1] nested calls.  Below zero it differs from
    the loop: the recursion never ends. *)
Theorem t_menos_recursao_prints_countdown
    (n : nat) (fuel : nat) (out : stdout) :
  n + 1 <= fuel ->
  call fuel (Fun t_menos_recursao []) [VInt (Z.of_nat n)] out
  = Some (Return VNone, out ++ countdown (Z.of_nat n) ++ [recursao_ftw])
  /\ forall z budget,
       (z < 0)%Z ->
       call budget (Fun t_menos_recursao []) [VInt z] out = None.
Proof.
  intro Enough. split; [now apply recursao_countdown|].
  - intros z budget. revert z out.
    induction budget as [|budget IH]; intros z out' Neg; [reflexivity|].
    rewrite recursao_step by lia. unfold bind. now rewrite IH by lia.
Qed.

(** X18. [t_menos], decorated with [auto_aplica_func_interna] and then
    [auto_aplicador], is the function the two decoration calls return
    without printing; called on a natural number [n] it prints what the
    loop prints before its last line, then its own last line, and returns
    [None], within [3 * n + 3] nested calls. *)
Theorem t_menos_prints_countdown
    (n : nat) (fuel : nat) (out : stdout) :
  3 * n + 3 <= fuel ->
  (forall budget out0,
     (d <- call (S budget) (Fun auto_aplica_func_interna []) [Fun t_menos []] ;;
      call (S budget) (Fun auto_aplicador []) [d]) out0
     = Some (Return t_menos_decorated, out0))
  /\ call fuel t_menos_decorated [VInt (Z.of_nat n)] out
     = Some (Return VNone,
             out ++ countdown (Z.of_nat n) ++ [nenhuma_recursao]).
Proof.
  intro Enough. split; [reflexivity|].
  revert fuel out Enough.
  induction n as [|n IH]; intros fuel out Enough;
    (destruct fuel as [|[|[|fuel]]]; try lia).
  - reflexivity.
  - rewrite t_menos_step by lia.
    replace (Z.of_nat (S n) - 1)%Z with (Z.of_nat n) by lia.
    unfold bind. rewrite IH by lia. unfold ret.
    rewrite countdown_succ. now rewrite <- app_assoc.
Qed.

(** X19. [t_menos_1a_classe] cannot be handed to itself: on any integer
    but zero it prints one line and then calls itself with one value, which
    raises the [TypeError] of a missing argument.  Handed
    [t_menos_recursao], it prints the whole countdown, ending with the last
    line of [t_menos_recursao]. *)
Theorem t_menos_1a_classe_needs_a_working_function
    (z : Z) (n : nat) (fuel : nat) (out : stdout) :
  z <> 0%Z ->
  n + 2 <= fuel ->
  call (S (S fuel)) (Fun t_menos_1a_classe [])
    [Fun t_menos_1a_classe []; VInt z] out
  = Some (Raise (TypeError (missing_positional "t_menos_1a_classe" 1)),
          out ++ [line (VInt z)])
  /\ call fuel (Fun t_menos_1a_classe [])
       [Fun t_menos_recursao []; VInt (Z.of_nat (S n))] out
     = Some (Return VNone,
             out ++ countdown (Z.of_nat (S n)) ++ [recursao_ftw]).
Proof.
  intros NZ Enough. split.
  - cbn [Closures.call fn_sig length Nat.eqb body py_eq_int].
    now rewrite (proj2 (Z.eqb_neq z 0) NZ).
  - destruct fuel as [|fuel]; [lia|].
    cbn [Closures.call fn_sig length Nat.eqb body py_eq_int].
    rewrite (proj2 (Z.eqb_neq (Z.of_nat (S n)) 0)) by lia.
    unfold bind at 1. cbn [print]. unfold bind at 1. cbn [of_result py_sub_int].
    replace (Z.of_nat (S n) - 1)%Z with (Z.of_nat n) by lia.
    unfold bind. rewrite recursao_countdown by lia. unfold ret.
    rewrite countdown_succ. now rewrite <- app_assoc.
Qed.

Lemma self_passing_countdown (n : nat) :
  forall fuel out,
    n + 1 <= fuel ->
    call fuel (Fun t_menos_1a_classe_recebendo_1a_classe [])
      [Fun t_menos_1a_classe_recebendo_1a_classe []; VInt (Z.of_nat n)] out
    = Some (Return VNone,
            out ++ countdown (Z.of_nat n) ++ [estilo_inception]).
Proof.
  induction n as [|n IH]; intros fuel out Enough;
    (destruct fuel as [|fuel]; [lia|]).
  - reflexivity.
  - rewrite self_passing_step by lia.
    replace (Z.of_nat (S n) - 1)%Z with (Z.of_nat n) by lia.
    unfold bind. rewrite IH by lia. unfold ret.
    rewrite countdown_succ. now rewrite <- app_assoc.
Qed.

(** X20. The function [auto_aplicador] returns for
    [t_menos_1a_classe_recebendo_1a_classe] prints, on every natural number
    [n], the countdown and the last line, within [n + 2] nested calls.
    Without [auto_aplicador] the caller chooses the function that goes on:
    handed [t_menos_trololo] and an integer other than zero, the countdown
    prints one line and then the line of [t_menos_trololo], and stops. *)
Theorem auto_aplicador_closes_the_countdown
    (n : nat) (z : Z) (fuel : nat) (out : stdout) :
  n + 2 <= fuel ->
  z <> 0%Z ->
  call fuel
    (Fun func_auto_aplicada [Fun t_menos_1a_classe_recebendo_1a_classe []])
    [VInt (Z.of_nat n)] out
  = Some (Return VNone, out ++ countdown (Z.of_nat n) ++ [estilo_inception])
  /\ call fuel (Fun t_menos_1a_classe_recebendo_1a_classe [])
       [Fun t_menos_trololo []; VInt z] out
     = Some (Return VNone, out ++ [line (VInt z); sequencia_fracassada]).
Proof.
  intros Enough NZ. destruct fuel as [|fuel]; [lia|]. split.
  - cbn [Closures.call fn_sig length Nat.eqb body].
    apply self_passing_countdown. lia.
  - rewrite self_passing_step by assumption.
    destruct fuel as [|fuel]; [lia|].
    unfold bind. cbn [Closures.call fn_sig length Nat.eqb body].
    unfold bind, print, ret. now rewrite <- app_assoc.
Qed.

(** The function decorated [k] times with [altera_param_de_func]. *)
Definition altered (k : nat) (func : val) : val :=
  Nat.iter k (fun f => Fun nova_func_de_altera [f]) func.

(** X21. A function decorated with [altera_param_de_func] does, on an
    integer [t], what the function itself does on [t + 1], and decorated
    [k] times what it does on [t + k]; on a value that is not an integer
    the decorated function raises the [TypeError] of [t + 1] and the
    function is not called. *)
Theorem altera_param_de_func_shifts
    (k : nat) (func v : val) (fuel : nat) (out : stdout) :
  call (S fuel) (Fun altera_param_de_func []) [func] out
  = Some (Return (altered 1 func), out)
  /\ (forall z,
        call (k + fuel) (altered k func) [VInt z] out
        = call fuel func [VInt (z + Z.of_nat k)] out)
  /\ ((forall z, v <> VInt z) ->
      call (S fuel) (altered 1 func) [v] out
      = Some (Raise (unsupported_operand "+"), out)).
Proof.
  split; [reflexivity|]. split.
  - induction k as [|k IH]; intro z.
    + simpl. now rewrite Z.add_0_r.
    + change (altered (S k) func)
        with (Fun nova_func_de_altera [altered k func]).
      cbn [Nat.add Closures.call fn_sig length Nat.eqb body].
      unfold bind. cbn [of_result py_add_int].
      rewrite IH. f_equal. f_equal. f_equal. lia.
  - intro NotInt. destruct v as [|z|c env]; try reflexivity.
    now destruct (NotInt z).
Qed.

End Targets.

Arguments fn : clear implicits.

(** The file's own runs: no target besides its functions. *)

Definition no_target_name (d : Empty_set) : string := match d with end.
Definition no_target_arity (d : Empty_set) : nat := match d with end.

Inductive no_exn : Type := .

Definition no_target_body (d : Empty_set)
    (args : list (value (fn Empty_set)))
  : M no_exn (value (fn Empty_set)) :=
  match d with end.

Local Abbreviation run :=
  (call (fn_name no_target_name) (fn_sig no_target_arity)
     (body no_target_body)).

Local Abbreviation the_countdown := (countdown (def := Empty_set)).
Local Abbreviation the_line := (line (def := Empty_set)).

Example t_menos_loop_2 :
  run 1 (Fun t_menos_loop []) [VInt 2] []
  = Some (Return VNone,
          ["T menos 2s para o lançamento"; "T menos 1s para o lançamento";
           veio_do_loop]).
Proof. reflexivity. Qed.

Lemma t_menos_recursao_prints_countdown_witness :   (* line 50 *)
  run 6 (Fun t_menos_recursao []) [VInt 5] []
  = Some (Return VNone, the_countdown 5 ++ [recursao_ftw]).
Proof.
  assert (5 + 1 <= 6) as Enough by lia.
  exact (proj1 (t_menos_recursao_prints_countdown
                  no_target_name no_target_arity no_target_body 5 6 []
                  Enough)).
Defined.

Lemma t_menos_prints_countdown_witness :            (* line 304 *)
  run 18 t_menos_decorated [VInt 5] []
  = Some (Return VNone, the_countdown 5 ++ [nenhuma_recursao]).
Proof.
  assert (3 * 5 + 3 <= 18) as Enough by lia.
  exact (proj2 (t_menos_prints_countdown
                  no_target_name no_target_arity no_target_body 5 18 []
                  Enough)).
Defined.

Lemma t_menos_1a_classe_needs_a_working_function_witness :  (* lines 88-96 *)
  run 6 (Fun t_menos_1a_classe []) [Fun t_menos_1a_classe []; VInt 3] []
  = Some (Raise (TypeError (missing_positional "t_menos_1a_classe" 1)),
          [the_line (VInt 3)])
  /\ run 4 (Fun t_menos_1a_classe []) [Fun t_menos_recursao []; VInt 3] []
     = Some (Return VNone, the_countdown 3 ++ [recursao_ftw]).
Proof.
  assert (3 <> 0)%Z as NZ by lia.
  assert (2 + 2 <= 4) as Enough by lia.
  split.
  - exact (proj1 (t_menos_1a_classe_needs_a_working_function
                    no_target_name no_target_arity no_target_body
                    3%Z 2 4 [] NZ Enough)).
  - exact (proj2 (t_menos_1a_classe_needs_a_working_function
                    no_target_name no_target_arity no_target_body
                    3%Z 2 4 [] NZ Enough)).
Defined.

Lemma auto_aplicador_closes_the_countdown_witness :  (* lines 131, 150-152 *)
  run 7
    (Fun func_auto_aplicada [Fun t_menos_1a_classe_recebendo_1a_classe []])
    [VInt 5] []
  = Some (Return VNone, the_countdown 5 ++ [estilo_inception])
  /\ run 7 (Fun t_menos_1a_classe_recebendo_1a_classe [])
       [Fun t_menos_trololo []; VInt 3] []
     = Some (Return VNone, [the_line (VInt 3); sequencia_fracassada]).
Proof.
  apply (auto_aplicador_closes_the_countdown
           no_target_name no_target_arity no_target_body 5 3%Z 7 []);
    [simpl; lia | lia].
Defined.

End Countdown.

End Closures.
